(** * snitch: ECS cluster capacity metrics

    A shallow embedding of [collector.go] and [collections.go] of
    github.com/shatil/snitch, and the properties of its capacity
    calculator, resource ledger, discovery layer, measurement
    orchestrator and publisher.

    Conventions.
    - Go's [int] and [int64] are 64-bit two's-complement integers; they are
      [Z] here, and every arithmetic operation of the source is followed by
      its wrap-around ([GoInt.wrap]).
    - A run-time panic (integer division by zero, index out of range) is
      [None].
    - Go strings are [string]; Go maps keyed by strings are [gmap string _].
      [Snitcher.Namespace] and [Snitcher.ShouldPublish] are pointers that
      may be nil, and are options.  The pointers inside the answers of ECS
      (the fields of a task, a resource, an attribute) are taken to be
      set: the source dereferences each of them without a test, so an
      answer with one of them nil ends the run with a panic, and the
      statements below are about the answers that have them all.
    - The AWS services are records of response functions, so that every
      statement quantifies over all responses the provider can give.
    - Log output is not modelled. *)

From Stdlib Require Import ZArith Lia Ascii String.
From stdpp Require Import gmap strings list fin_maps.

Local Open Scope Z_scope.

(** ** Go's machine integers *)

Module GoInt.

Definition min_int : Z := - 2 ^ 63.
Definition max_int : Z := 2 ^ 63 - 1.

(** The values an [int] can hold. *)
Definition in_int (z : Z) : Prop := min_int <= z <= max_int.

(** Two's-complement wrap-around to 64 bits. *)
Definition wrap (z : Z) : Z := (z + 2 ^ 63) mod 2 ^ 64 - 2 ^ 63.

(** [x + y] on [int]. *)
Definition add (x y : Z) : Z := wrap (x + y).

(** [x / y] on [int]: truncated division, a run-time panic when [y] is zero. *)
Definition quo (x y : Z) : option Z :=
  if y =? 0 then None else Some (wrap (x ÷ y)).

(** [float64(x)] for an [int] [x]: the nearest number with a 53-bit
    significand, ties to even.  The result is again an integer, so it is
    kept as a [Z]. *)
Definition float64 (x : Z) : Z :=
  let a := Z.abs x in
  if a <? 2 ^ 53 then x
  else
    let k := Z.log2 a - 52 in
    let q := a / 2 ^ k in
    let r := a mod 2 ^ k in
    let half := 2 ^ (k - 1) in
    let q' := if (half <? r) || ((half =? r) && Z.odd q) then q + 1 else q in
    Z.sgn x * (q' * 2 ^ k).

End GoInt.

(** ** The library functions the collector calls *)

Module strconv.

Inductive NumError := ErrSyntax | ErrRange.

Definition digit (c : ascii) : option Z :=
  let n := Z.of_nat (nat_of_ascii c) in
  if (48 <=? n) && (n <=? 57) then Some (n - 48) else None.

Definition maxUint64 : Z := 2 ^ 64 - 1.

(** The smallest number whose product with the base 10 exceeds
    [maxUint64]. *)
Definition cutoff : Z := maxUint64 ÷ 10 + 1.

(** [strconv.ParseUint s 10 64] on a digit string: the bytes are read
    from the left; a byte that is no digit ends the scan with a syntax
    error; a digit the 64-bit accumulator [n] cannot take ends it with a
    range error and the value [maxUint64], whatever follows. *)
Fixpoint ParseUint_from (s : string) (n : Z) : Z * option NumError :=
  match s with
  | EmptyString => (n, None)
  | String c s' =>
      match digit c with
      | None => (0, Some ErrSyntax)
      | Some d =>
          if cutoff <=? n then (maxUint64, Some ErrRange)
          else
            let n1 := n * 10 + d in
            if maxUint64 <? n1 then (maxUint64, Some ErrRange)
            else ParseUint_from s' n1
      end
  end.

Definition ParseUint (s : string) : Z * option NumError :=
  match s with
  | EmptyString => (0, Some ErrSyntax)
  | _ => ParseUint_from s 0
  end.

(** [strconv.ParseInt s 10 0]: the sign is picked off, the rest parsed
    as an unsigned number, and the range of [int] checked: a syntax error
    gives 0, a magnitude out of range the nearest [int] with a range
    error. *)
Definition ParseInt (s : string) : Z * option NumError :=
  match s with
  | EmptyString => (0, Some ErrSyntax)
  | String c rest =>
      let '(neg, body) :=
        if Ascii.eqb c "+" then (false, rest)
        else if Ascii.eqb c "-" then (true, rest)
        else (false, s) in
      match ParseUint body with
      | (_, Some ErrSyntax) => (0, Some ErrSyntax)
      | (un, _) =>
          let bound := 2 ^ 63 in
          if negb neg && (bound <=? un) then (bound - 1, Some ErrRange)
          else if (neg : bool) && (bound <? un) then (- bound, Some ErrRange)
          else (if neg : bool then - un else un, None)
      end
  end.

(** [strconv.Atoi]: an optional sign and decimal digits.  Its fast path
    for strings shorter than 19 bytes reads them as [ParseInt] does, and
    longer strings go to [ParseInt] itself, so the two agree on every
    string. *)
Definition Atoi (s : string) : Z * option NumError := ParseInt s.

End strconv.

Module strings.

(** [strings.Contains s substr]. *)
Fixpoint Contains (s substr : string) : bool :=
  String.prefix substr s ||
  match s with
  | EmptyString => false
  | String _ s' => Contains s' substr
  end.

(** The pieces of [s] between the occurrences of a non-empty [sep], found
    from left to right; [skip] counts the bytes of a separator that has
    just been matched and is still to be passed over. *)
Fixpoint Split_from (sep : string) (skip : nat) (s : string) : list string :=
  match s with
  | EmptyString => [EmptyString]
  | String c s' =>
      match skip with
      | S k => Split_from sep k s'
      | O =>
          if String.prefix sep s
          then EmptyString :: Split_from sep (String.length sep - 1) s'
          else
            match Split_from sep 0 s' with
            | piece :: pieces => String c piece :: pieces
            | [] => [String c EmptyString]
            end
      end
  end.

(** [strings.Split s sep] for a non-empty [sep], the only way the collector
    calls it. *)
Definition Split (s sep : string) : list string := Split_from sep 0 s.

End strings.

(** ** The part of the AWS data model the collector reads and writes *)

Module ecs.

(** [ecs.Resource]: the collector reads [Name] and [IntegerValue] only. *)
Record Resource := mkResource {
  Name : string;
  IntegerValue : Z
}.

Record Attribute := mkAttribute {
  attr_Name : string;
  attr_Value : string
}.

(** The two fields of [ecs.Task] that [MeasureResources] reads.  The SDK
    types them [*string]; the source reads [*task.Cpu] and [*task.Memory]
    without a test, so a task with one of them nil makes it panic.  A
    [Task] here has both. *)
Record Task := mkTask {
  Cpu : string;
  Memory : string
}.

Record ContainerInstance := mkContainerInstance {
  Attributes : list Attribute;
  RegisteredResources : list Resource;
  RemainingResources : list Resource
}.

End ecs.

Module cloudwatch.

Record Dimension := mkDimension {
  dim_Name : string;
  dim_Value : string
}.

(** [Timestamp] is a reading of the clock; [Value] is a [float64] that
    holds an integer (see [GoInt.float64]). *)
Record MetricDatum := mkMetricDatum {
  MetricName : string;
  Dimensions : list Dimension;
  Timestamp : Z;
  Value : Z;
  Unit : string
}.

End cloudwatch.

(** An error returned by the SDK. *)
Inductive error := Err (msg : string).

(** ** Capacity calculator: [ContainersPossible] *)

(** The [for _, resource := range resources] loop, with the two
    accumulators [byCPU] and [byMemory] threaded through. *)
Fixpoint ContainersPossible_range (cpu memory : Z)
    (resources : list ecs.Resource) (byCPU byMemory : Z) : option (Z * Z) :=
  match resources with
  | [] => Some (byCPU, byMemory)
  | resource :: rest =>
      if String.eqb (ecs.Name resource) "CPU" then
        q ← GoInt.quo (ecs.IntegerValue resource) cpu;
        ContainersPossible_range cpu memory rest (GoInt.add byCPU q) byMemory
      else if String.eqb (ecs.Name resource) "MEMORY" then
        q ← GoInt.quo (ecs.IntegerValue resource) memory;
        ContainersPossible_range cpu memory rest byCPU (GoInt.add byMemory q)
      else
        ContainersPossible_range cpu memory rest byCPU byMemory
  end.

Definition ContainersPossible (cpu memory : Z) (resources : list ecs.Resource)
    : option Z :=
  '(byCPU, byMemory) ← ContainersPossible_range cpu memory resources 0 0;
  let canSchedule := 0 in
  Some (if byCPU <? byMemory
        then GoInt.add canSchedule byCPU
        else GoInt.add canSchedule byMemory).

(** The capacity of a resource vector for one resource name, in the words of
    the specification: the sum, over the entries with that name, of the
    entry's value divided by the unit. *)
Definition capacity (name : string) (unit : Z) (resources : list ecs.Resource)
    : Z :=
  foldr Z.add 0
    ((λ r, ecs.IntegerValue r ÷ unit) <$>
       filter (λ r, ecs.Name r = name) resources).

Definition cpu_capacity := capacity "CPU".
Definition memory_capacity := capacity "MEMORY".

(** [getInstanceType]: the value of the first attribute named
    ["ecs.instance-type"], the empty string when there is none. *)
Fixpoint getInstanceType (attributes : list ecs.Attribute) : string :=
  match attributes with
  | [] => ""
  | attr :: rest =>
      if String.eqb (ecs.attr_Name attr) "ecs.instance-type"
      then ecs.attr_Value attr
      else getInstanceType rest
  end.

(** ** The cluster resource ledger: [ClusterResources] *)

(** The four maps of the struct.  The field [Resources] of the source maps
    the four metric names to these very map objects (Go maps are
    references), so it is a view of the four fields: see [Resources]. *)
Record ClusterResources := mkClusterResources {
  Cluster : string;
  CPU : gmap string Z;
  Memory : gmap string Z;
  Registered : gmap string Z;
  Remaining : gmap string Z
}.

Definition NewClusterResources (cluster : string) : ClusterResources :=
  {| Cluster := cluster; CPU := ∅; Memory := ∅;
     Registered := ∅; Remaining := ∅ |}.

Definition Resources (cr : ClusterResources) : gmap string (gmap string Z) :=
  <["RemainingSchedulable" := Remaining cr]>
    (<["RegisteredSchedulable" := Registered cr]>
       (<["LowestCommonMultipleMemory" := Memory cr]>
          (<["LowestCommonMultipleCPU" := CPU cr]> ∅))).

(** [m[k]] on a [map[string]int]: the zero value when [k] is absent. *)
Definition index (m : gmap string Z) (k : string) : Z := default 0 (m !! k).

(** The body of the loop of [DescribeResourcesByInstanceType], given the two
    counts: the footprint is overwritten, the counts are added to. *)
Definition record (instanceType : string) (cpu memory registered remaining : Z)
    (cr : ClusterResources) : ClusterResources :=
  {| Cluster := Cluster cr;
     CPU := <[instanceType := cpu]> (CPU cr);
     Memory := <[instanceType := memory]> (Memory cr);
     Registered :=
       <[instanceType := GoInt.add (index (Registered cr) instanceType) registered]>
         (Registered cr);
     Remaining :=
       <[instanceType := GoInt.add (index (Remaining cr) instanceType) remaining]>
         (Remaining cr) |}.

(** ** Effects: the clock, the calls made, panics *)

(** What a run does that can be observed: the requests sent to the two
    services, in order, and for a batch of metrics the answer as well.  The
    invocations of [ContainersPossible] are recorded too, so that its
    arguments can be stated at every call site. *)
Inductive Event :=
| EvListClustersPages
| EvListTasksPages (cluster : string)
| EvDescribeTasks (cluster : string) (tasks : list string)
| EvListContainerInstances (cluster status : string)
| EvDescribeContainerInstances (cluster : string) (instances : list string)
| EvContainersPossible (cpu memory : Z) (resources : list ecs.Resource)
| EvValidate (namespace : option string)
    (batch : list cloudwatch.MetricDatum) (err : option error)
| EvPutMetricData (namespace : option string)
    (batch : list cloudwatch.MetricDatum) (err : option error).

(** The clock is monotonic: every reading adds the next of the pending
    non-negative advances to the last reading. *)
Record World := mkWorld {
  clock : Z;
  ticks : list N;
  trace : list Event
}.

(** A computation reads and changes the world, or panics. *)
Definition M (A : Type) : Type := World → option (A * World).

Definition ret {A} (a : A) : M A := λ w, Some (a, w).

Definition bind {A B} (m : M A) (k : A → M B) : M B :=
  λ w, match m w with
       | Some (a, w') => k a w'
       | None => None
       end.

Notation "'let!' x := m 'in' k" := (bind m (λ x, k))
  (at level 10, x pattern, m at level 100, k at level 200).

Definition emit (e : Event) : M unit :=
  λ w, Some (tt, {| clock := clock w; ticks := ticks w;
                    trace := trace w ++ [e] |}).

Definition or_panic {A} (o : option A) : M A :=
  λ w, match o with Some a => Some (a, w) | None => None end.

(** [time.Now()]. *)
Definition time_Now : M Z :=
  λ w, let t := clock w + Z.of_N (hd 0%N (ticks w)) in
       Some (t, {| clock := t; ticks := tl (ticks w); trace := trace w |}).

(** ** The services *)

(** [ecsiface.ECSAPI], as far as the collector calls it.  A paged listing
    is the list of pages the service has, together with the error that ends
    it, if any. *)
Record ECSAPI := mkECSAPI {
  ListClustersPages : list (list string) * option error;
  ListTasksPages : string → list (list string) * option error;
  DescribeTasks : string → list string → list ecs.Task + error;
  ListContainerInstances : string → string → list string + error;
  DescribeContainerInstances :
    string → list string → list ecs.ContainerInstance + error
}.

(** [cloudwatchiface.CloudWatchAPI] and the [Validate] method of the SDK's
    [PutMetricDataInput].  The answer to a submission may depend on
    everything that happened before it. *)
Record CloudWatchAPI := mkCloudWatchAPI {
  Validate : option string → list cloudwatch.MetricDatum → option error;
  PutMetricData :
    list Event → option string → list cloudwatch.MetricDatum → option error
}.

(** [Namespace] is a [*string] and [ShouldPublish] a [*bool]: [None] is
    the nil pointer.  The two clients are the services the Snitcher talks
    to: those it was given or, for a field left nil, those [WithAWS]
    makes from the session. *)
Record Snitcher := mkSnitcher {
  CloudWatch : CloudWatchAPI;
  ECS : ECSAPI;
  Namespace : option string;
  ShouldPublish : option bool
}.

(** The pages the SDK hands to a callback that answers [len(page) > 0]:
    all pages up to and including the first empty one. *)
Fixpoint pages_seen {A} (pages : list (list A)) : list (list A) :=
  match pages with
  | [] => []
  | page :: rest =>
      page :: (if (0 <? length page)%nat then pages_seen rest else [])
  end.

(** ** Discovery layer *)

(** [DiscoverTasks]: the values sent on the channel, in order: one batch of
    task identifiers for every page the callback sees. *)
Definition DiscoverTasks (sn : Snitcher) (cluster : string)
    : M (list (list string)) :=
  let! _ := emit (EvListTasksPages cluster) in
  ret (pages_seen (fst (ListTasksPages (ECS sn) cluster))).

(** The name sent for one identifier:
    [strings.Split( *arn, ":cluster/")[1]], a panic when the slice has no
    second element. *)
Definition cluster_name (arn : string) : option string :=
  strings.Split arn ":cluster/" !! 1%nat.

(** [DiscoverClusters]: the names sent on the channel, in order. *)
Definition DiscoverClusters (sn : Snitcher) : M (list string) :=
  let! _ := emit EvListClustersPages in
  or_panic
    (mapM cluster_name (concat (pages_seen (fst (ListClustersPages (ECS sn)))))).

Definition ListContainerInstances_of (sn : Snitcher) (cluster : string)
    : M (list string) :=
  let! _ := emit (EvListContainerInstances cluster "ACTIVE") in
  match ListContainerInstances (ECS sn) cluster "ACTIVE" with
  | inr _ => ret []
  | inl arns => ret arns
  end.

Definition DescribeContainerInstances_of (sn : Snitcher) (cluster : string)
    (instances : list string) : M (list ecs.ContainerInstance) :=
  let! _ := emit (EvDescribeContainerInstances cluster instances) in
  match DescribeContainerInstances (ECS sn) cluster instances with
  | inr _ => ret []
  | inl containers => ret containers
  end.

(** ** Measurement orchestrator *)

(** The loop of [MeasureResources] over the described tasks; [cpu] and
    [memory] are the named results, which start at zero. *)
Fixpoint MeasureResources_range (tasks : list ecs.Task) (cpu memory : Z)
    : Z * Z :=
  match tasks with
  | [] => (cpu, memory)
  | task :: rest =>
      let '(taskCPU, _) := strconv.Atoi (ecs.Cpu task) in
      let '(taskMemory, _) := strconv.Atoi (ecs.Memory task) in
      let cpu := if cpu <? taskCPU then taskCPU else cpu in
      let memory := if memory <? taskMemory then taskMemory else memory in
      MeasureResources_range rest cpu memory
  end.

Definition MeasureResources (sn : Snitcher) (cluster : string)
    (tasks : list string) : M (Z * Z) :=
  let! _ := emit (EvDescribeTasks cluster tasks) in
  match DescribeTasks (ECS sn) cluster tasks with
  | inr _ => ret (0, 0)
  | inl output => ret (MeasureResources_range output 0 0)
  end.

(** [ToMetricData].  Go ranges over a map in an unspecified order; here the
    order is that of [map_to_list], and what is stated about the result
    does not depend on the order. *)
Definition ToMetricData (cr : ClusterResources)
    : M (list cloudwatch.MetricDatum) :=
  let clusterDimension := cloudwatch.mkDimension "ClusterName" (Cluster cr) in
  let! timestamp := time_Now in
  ret (flat_map
         (λ '(metricName, metricResources),
            (λ '(instanceType, value),
               cloudwatch.mkMetricDatum metricName
                 [clusterDimension;
                  cloudwatch.mkDimension "InstanceType" instanceType]
                 timestamp (GoInt.float64 value) "Count")
            <$> map_to_list metricResources)
         (map_to_list (Resources cr))).

(** A call of [ContainersPossible] from the collector. *)
Definition call_ContainersPossible (cpu memory : Z)
    (resources : list ecs.Resource) : M Z :=
  let! _ := emit (EvContainersPossible cpu memory resources) in
  or_panic (ContainersPossible cpu memory resources).

Fixpoint DescribeResourcesByInstanceType_range (cpu memory : Z)
    (containers : list ecs.ContainerInstance) (cr : ClusterResources)
    : M ClusterResources :=
  match containers with
  | [] => ret cr
  | container :: rest =>
      let instanceType := getInstanceType (ecs.Attributes container) in
      let! registered :=
        call_ContainersPossible cpu memory (ecs.RegisteredResources container) in
      let! remaining :=
        call_ContainersPossible cpu memory (ecs.RemainingResources container) in
      DescribeResourcesByInstanceType_range cpu memory rest
        (record instanceType cpu memory registered remaining cr)
  end.

Definition DescribeResourcesByInstanceType (sn : Snitcher) (cluster : string)
    (instances : list string) (cpu memory : Z)
    : M (list cloudwatch.MetricDatum) :=
  let cr := NewClusterResources cluster in
  let! containers := DescribeContainerInstances_of sn cluster instances in
  let! cr := DescribeResourcesByInstanceType_range cpu memory containers cr in
  ToMetricData cr.

(** The loop of [MeasureCluster] over the batches of task identifiers. *)
Fixpoint MeasureCluster_range (sn : Snitcher) (cluster : string)
    (batches : list (list string)) (cpu memory : Z) : M (Z * Z) :=
  match batches with
  | [] => ret (cpu, memory)
  | tasks :: rest =>
      let! (cohortCPU, cohortMemory) := MeasureResources sn cluster tasks in
      let cpu := if cpu <? cohortCPU then cohortCPU else cpu in
      let memory := if memory <? cohortMemory then cohortMemory else memory in
      MeasureCluster_range sn cluster rest cpu memory
  end.

(** The task-footprint phase: the first loop of [MeasureCluster]. *)
Definition footprint (sn : Snitcher) (cluster : string) : M (Z * Z) :=
  let! batches := DiscoverTasks sn cluster in
  MeasureCluster_range sn cluster batches 0 0.

Definition MeasureCluster (sn : Snitcher) (cluster : string)
    : M (list cloudwatch.MetricDatum) :=
  let! (cpu, memory) := footprint sn cluster in
  if (cpu =? 0) || (memory =? 0) then ret []
  else
    let! instances := ListContainerInstances_of sn cluster in
    DescribeResourcesByInstanceType sn cluster instances cpu memory.

(** The fan-in of [Measure]: the results of the clusters, appended in the
    order in which they arrive. *)
Fixpoint Measure_collect (sn : Snitcher) (clusters : list string)
    : M (list cloudwatch.MetricDatum) :=
  match clusters with
  | [] => ret []
  | cluster :: rest =>
      let! data := MeasureCluster sn cluster in
      let! more := Measure_collect sn rest in
      ret (data ++ more)
  end.

(** [Measure].  One goroutine measures each discovered cluster and the
    goroutines share nothing but the result channel; [arrival] is the order
    in which their results are received, a rearrangement of the clusters. *)
Definition Measure (sn : Snitcher) (arrival : list string → list string)
    : M (list cloudwatch.MetricDatum) :=
  let! clusters := DiscoverClusters sn in
  Measure_collect sn (arrival clusters).

(** ** Publisher *)

Definition batchSize : nat := 20.

(** [metricData[i:end]]. *)
Definition slice {A} (l : list A) (i j : nat) : list A := take (j - i) (drop i l).

(** One turn of the loop of [Publish] on the batch [input.MetricData]. *)
Definition Publish_batch (sn : Snitcher)
    (batch : list cloudwatch.MetricDatum) : M unit :=
  let invalid := Validate (CloudWatch sn) (Namespace sn) batch in
  let! _ := emit (EvValidate (Namespace sn) batch invalid) in
  match invalid with
  | Some _ => ret tt
  | None =>
      λ w,
        let err := PutMetricData (CloudWatch sn) (trace w) (Namespace sn) batch in
        emit (EvPutMetricData (Namespace sn) batch err) w
  end.

(** The loop [for i := 0; i < len(metricData); i += batchSize]; the index
    grows at every turn, so [length metricData] turns are enough. *)
Fixpoint Publish_loop (turns : nat) (sn : Snitcher)
    (metricData : list cloudwatch.MetricDatum) (i : nat) : M unit :=
  match turns with
  | O => ret tt
  | S turns' =>
      if (i <? length metricData)%nat then
        let end_ := (i + batchSize)%nat in
        let end_ := if (length metricData <? end_)%nat
                    then length metricData else end_ in
        let! _ := Publish_batch sn (slice metricData i end_) in
        Publish_loop turns' sn metricData (i + batchSize)
      else ret tt
  end.

Definition Publish (sn : Snitcher) (metricData : list cloudwatch.MetricDatum)
    : M unit :=
  Publish_loop (length metricData) sn metricData 0.

(** [WithAWS]: [session.Must] panics when [session.NewSession] answers
    with an error; [newSession] is that answer.  Otherwise the clients
    left nil are made from the session, which leaves the Snitcher naming
    the services it talks to. *)
Definition WithAWS (newSession : option error) (sn : Snitcher) : M Snitcher :=
  match newSession with
  | Some _ => or_panic None
  | None => ret sn
  end.

(** [Run]: [*sn.ShouldPublish] panics on a nil pointer. *)
Definition Run (newSession : option error) (sn : Snitcher)
    (arrival : list string → list string) : M unit :=
  let! sn := WithAWS newSession sn in
  let! metricData := Measure sn arrival in
  let! shouldPublish := or_panic (ShouldPublish sn) in
  if shouldPublish : bool then Publish sn metricData else ret tt.

(** * Vocabulary of the statements *)

(** The world after further events. *)
Definition extend (w : World) (evs : list Event) : World :=
  {| clock := clock w; ticks := ticks w; trace := trace w ++ evs |}.

(** The largest number seen, zero when none is positive. *)
Definition running_max (l : list Z) : Z := foldr Z.max 0 l.

(** What a task contributes: the value [strconv.Atoi] returns for the
    string, whatever the error. *)
Definition task_cpu (t : ecs.Task) : Z := fst (strconv.Atoi (ecs.Cpu t)).
Definition task_memory (t : ecs.Task) : Z := fst (strconv.Atoi (ecs.Memory t)).

(** The tasks described for a batch: none when [DescribeTasks] fails. *)
Definition described_batch (sn : Snitcher) (cluster : string)
    (tasks : list string) : list ecs.Task :=
  match DescribeTasks (ECS sn) cluster tasks with
  | inl output => output
  | inr _ => []
  end.

(** All the tasks described during the task-footprint phase of a cluster. *)
Definition described (sn : Snitcher) (cluster : string) : list ecs.Task :=
  concat (described_batch sn cluster
            <$> pages_seen (fst (ListTasksPages (ECS sn) cluster))).

(** The events of the task-footprint phase. *)
Definition footprint_events (sn : Snitcher) (cluster : string) : list Event :=
  EvListTasksPages cluster
  :: (EvDescribeTasks cluster
        <$> pages_seen (fst (ListTasksPages (ECS sn) cluster))).

(** A request about container instances. *)
Definition container_instance_event (e : Event) : bool :=
  match e with
  | EvListContainerInstances _ _ | EvDescribeContainerInstances _ _ => true
  | _ => false
  end.

(** The units of a recorded call of [ContainersPossible] are positive. *)
Definition units_positive (e : Event) : Prop :=
  match e with
  | EvContainersPossible cpu memory _ => 0 < cpu ∧ 0 < memory
  | _ => True
  end.

(** A recorded call of [ContainersPossible] returns, that is, no division
    in it is by zero. *)
Definition call_returns (e : Event) : Prop :=
  match e with
  | EvContainersPossible cpu memory resources =>
      is_Some (ContainersPossible cpu memory resources)
  | _ => True
  end.

(** The clock reading of the next [time.Now()], and the world after it. *)
Definition now (w : World) : Z := clock w + Z.of_N (hd 0%N (ticks w)).

Definition tick (w : World) : World :=
  {| clock := now w; ticks := tl (ticks w); trace := trace w |}.

(** A metric point with the two dimensions and the unit of the collector,
    and the point of one entry of the ledger. *)
Definition datum (cluster metricName instanceType : string) (value timestamp : Z)
    : cloudwatch.MetricDatum :=
  {| cloudwatch.MetricName := metricName;
     cloudwatch.Dimensions :=
       [{| cloudwatch.dim_Name := "ClusterName"; cloudwatch.dim_Value := cluster |};
        {| cloudwatch.dim_Name := "InstanceType";
           cloudwatch.dim_Value := instanceType |}];
     cloudwatch.Timestamp := timestamp;
     cloudwatch.Value := value;
     cloudwatch.Unit := "Count" |}.

Definition point (cluster metricName instanceType : string) (value timestamp : Z)
    : cloudwatch.MetricDatum :=
  datum cluster metricName instanceType (GoInt.float64 value) timestamp.

(** The points of one of the four maps. *)
Definition points_of (cluster metricName : string) (m : gmap string Z)
    (timestamp : Z) : list cloudwatch.MetricDatum :=
  (λ '(instanceType, value), point cluster metricName instanceType value timestamp)
  <$> map_to_list m.

(** The points of a ledger at a given time, in the order of [map_to_list]. *)
Definition points (cr : ClusterResources) (timestamp : Z)
    : list cloudwatch.MetricDatum :=
  flat_map
    (λ '(metricName, metricResources),
       (λ '(instanceType, value),
          point (Cluster cr) metricName instanceType value timestamp)
       <$> map_to_list metricResources)
    (map_to_list (Resources cr)).

(** The container instances of the capacity phase: those described for the
    identifiers listed, none when a request fails. *)
Definition listed_instances (sn : Snitcher) (cluster : string) : list string :=
  match ListContainerInstances (ECS sn) cluster "ACTIVE" with
  | inl arns => arns
  | inr _ => []
  end.

Definition described_instances (sn : Snitcher) (cluster : string)
    : list ecs.ContainerInstance :=
  match DescribeContainerInstances (ECS sn) cluster (listed_instances sn cluster) with
  | inl containers => containers
  | inr _ => []
  end.

(** The count [ContainersPossible] returns when no unit is zero. *)
Definition possible (cpu memory : Z) (resources : list ecs.Resource) : Z :=
  GoInt.wrap (cpu_capacity cpu resources)
  `min` GoInt.wrap (memory_capacity memory resources).

(** The ledger after one more container instance, and after a sequence. *)
Definition record_instance (cpu memory : Z) (cr : ClusterResources)
    (container : ecs.ContainerInstance) : ClusterResources :=
  record (getInstanceType (ecs.Attributes container)) cpu memory
    (possible cpu memory (ecs.RegisteredResources container))
    (possible cpu memory (ecs.RemainingResources container)) cr.

Definition capacity_ledger (cpu memory : Z)
    (containers : list ecs.ContainerInstance) (cr : ClusterResources)
    : ClusterResources :=
  foldl (record_instance cpu memory) cr containers.

Definition capacity_events (cpu memory : Z)
    (containers : list ecs.ContainerInstance) : list Event :=
  flat_map
    (λ container,
       [EvContainersPossible cpu memory (ecs.RegisteredResources container);
        EvContainersPossible cpu memory (ecs.RemainingResources container)])
    containers.

(** ** The fakes of the test suite *)

Module Fake.

Definition world : World := {| clock := 0; ticks := [1%N; 2%N]; trace := [] |}.

Definition expectedRegistered : list ecs.Resource :=
  [ecs.mkResource "CPU" 8192; ecs.mkResource "MEMORY" 15468].

Definition expectedRemaining : list ecs.Resource :=
  [ecs.mkResource "CPU" (8192 - 2560); ecs.mkResource "MEMORY" (15468 - 3072)].

Definition NewFakeContainerInstance (reg rem : list ecs.Resource)
    : ecs.ContainerInstance :=
  ecs.mkContainerInstance
    [ecs.mkAttribute "ecs.instance-type" "fake.2xlarge"] reg rem.

Definition expectedTasks : list ecs.Task :=
  [ecs.mkTask "2560" "1440"; ecs.mkTask "1024" "3072";
   ecs.mkTask "invalid" "invalid"].

Definition expectedClusterArns : list string :=
  ["arn:aws:ecs:us-east-1:123456789012:cluster/fake-ecs-cluster";
   "arn:aws:ecs:us-east-1:123456789012:cluster/another-fake-ecs-cluster";
   "arn:aws:ecs:us-east-1:123456789012:cluster/who-even-uses-fargate"].

(** [NewFakeECS]: one page per cluster identifier, one page of three task
    identifiers, three container instances of one type. *)
Definition NewFakeECS : ECSAPI :=
  {| ListClustersPages := ((λ arn, [arn]) <$> expectedClusterArns, None);
     ListTasksPages := λ _, ([["task/1394beef"; "task/6649bf9d"; "task/b9cfa5da"]], None);
     DescribeTasks := λ _ _, inl expectedTasks;
     ListContainerInstances :=
       λ _ _, inl ["container-instance/30ed79a6"; "container-instance/31b326d2";
                   "container-instance/4c684147"];
     DescribeContainerInstances :=
       λ _ _, inl (replicate 3
                     (NewFakeContainerInstance expectedRegistered expectedRemaining)) |}.

(** The fake of [TestSnitcher_MeasureClusterEmpty]: one page without task
    identifiers, no task described. *)
Definition EmptyECS : ECSAPI :=
  {| ListClustersPages := ([], None);
     ListTasksPages := λ _, ([[]], None);
     DescribeTasks := λ _ _, inl [];
     ListContainerInstances := λ _ _, inl [];
     DescribeContainerInstances := λ _ _, inl [] |}.

(** [FakeCloudWatch]: every submission is accepted; the input is valid when
    it has a namespace. *)
Definition FakeCloudWatch : CloudWatchAPI :=
  {| Validate := λ namespace _,
       match namespace with
       | Some _ => None
       | None => Some (Err "missing required field, PutMetricDataInput.Namespace")
       end;
     PutMetricData := λ _ _ _, None |}.

(** A cluster with one task of footprint (1024, 1024) and one container
    instance whose registered CPU is reported as a negative number. *)
Definition NegativeECS : ECSAPI :=
  {| ListClustersPages := ([["arn:aws:ecs:us-east-1:123456789012:cluster/c"]], None);
     ListTasksPages := λ _, ([["task/1"]], None);
     DescribeTasks := λ _ _, inl [ecs.mkTask "1024" "1024"];
     ListContainerInstances := λ _ _, inl ["container-instance/1"];
     DescribeContainerInstances :=
       λ _ _, inl [NewFakeContainerInstance
                     [ecs.mkResource "CPU" (-2048); ecs.mkResource "MEMORY" 4096]
                     [ecs.mkResource "CPU" 0; ecs.mkResource "MEMORY" 4096]] |}.


Definition snitcher (api : ECSAPI) : Snitcher :=
  {| CloudWatch := FakeCloudWatch; ECS := api;
     Namespace := Some "Collector/Test"; ShouldPublish := Some true |}.

End Fake.

(** The sum of the values of a resource vector; the resources of a
    container instance, registered and remaining; their total over a
    sequence of container instances. *)
Definition sum_values (resources : list ecs.Resource) : Z :=
  foldr Z.add 0 (ecs.IntegerValue <$> resources).

Definition instance_resources (c : ecs.ContainerInstance) : list ecs.Resource :=
  ecs.RegisteredResources c ++ ecs.RemainingResources c.

Definition nonneg_instance (c : ecs.ContainerInstance) : Prop :=
  Forall (λ r, 0 ≤ ecs.IntegerValue r) (instance_resources c).

Definition resources_total (containers : list ecs.ContainerInstance) : Z :=
  foldr Z.add 0 ((λ c, sum_values (instance_resources c)) <$> containers).

(** All the values of a map are between 0 and a bound. *)
Definition bounded (B : Z) (m : gmap string Z) : Prop :=
  map_Forall (λ _ v, 0 ≤ v ≤ B) m.

(** ** Vocabulary of the publisher *)

(** The events of one turn of the loop of [Publish], after the trace [tr]. *)
Definition batch_events (sn : Snitcher) (tr : list Event)
    (batch : list cloudwatch.MetricDatum) : list Event :=
  let invalid := Validate (CloudWatch sn) (Namespace sn) batch in
  EvValidate (Namespace sn) batch invalid
  :: match invalid with
     | Some _ => []
     | None =>
         [EvPutMetricData (Namespace sn) batch
            (PutMetricData (CloudWatch sn)
               (tr ++ [EvValidate (Namespace sn) batch invalid])
               (Namespace sn) batch)]
     end.

Fixpoint publish_events (sn : Snitcher) (tr : list Event)
    (batches : list (list cloudwatch.MetricDatum)) : list Event :=
  match batches with
  | [] => []
  | batch :: rest =>
      batch_events sn tr batch
      ++ publish_events sn (tr ++ batch_events sn tr batch) rest
  end.

(** A list cut into consecutive pieces of [n] elements, the last one
    shorter when the length is no multiple of [n]; [turns] bounds the number
    of pieces. *)
Fixpoint chunks {A} (turns n : nat) (l : list A) : list (list A) :=
  match turns with
  | O => []
  | S turns' =>
      match l with
      | [] => []
      | _ => take n l :: chunks turns' n (drop n l)
      end
  end.

(** The batches validated and the batches submitted, read off a trace. *)
Definition validated (evs : list Event) : list (list cloudwatch.MetricDatum) :=
  omap (λ e, match e with EvValidate _ batch _ => Some batch | _ => None end) evs.

Definition submitted (evs : list Event) : list (list cloudwatch.MetricDatum) :=
  omap (λ e, match e with EvPutMetricData _ batch _ => Some batch | _ => None end)
    evs.

(** A request to CloudWatch, or the validation that precedes it. *)
Definition cloudwatch_event (e : Event) : bool :=
  match e with
  | EvValidate _ _ _ | EvPutMetricData _ _ _ => true
  | _ => false
  end.

(** The cluster identifiers the callback of [DiscoverClusters] receives. *)
Definition seen_clusters (sn : Snitcher) : list string :=
  concat (pages_seen (fst (ListClustersPages (ECS sn)))).

(** The container instances of one instance type, the sum of the counts
    [ContainersPossible] returns for their registered and for their
    remaining resources, and the instance types of a sequence. *)
Definition of_type (instanceType : string)
    (containers : list ecs.ContainerInstance) : list ecs.ContainerInstance :=
  filter (λ c, getInstanceType (ecs.Attributes c) = instanceType) containers.

Definition registered_sum (cpu memory : Z)
    (containers : list ecs.ContainerInstance) : Z :=
  foldr Z.add 0
    ((λ c, possible cpu memory (ecs.RegisteredResources c)) <$> containers).

Definition remaining_sum (cpu memory : Z)
    (containers : list ecs.ContainerInstance) : Z :=
  foldr Z.add 0
    ((λ c, possible cpu memory (ecs.RemainingResources c)) <$> containers).

Definition instance_types (containers : list ecs.ContainerInstance)
    : gset string :=
  list_to_set ((λ c, getInstanceType (ecs.Attributes c)) <$> containers).

(** [ContainersPossible] divides by zero: a unit is zero and the resource
    vector has an entry of the matching name. *)
Definition divides_by_zero (cpu memory : Z) (resources : list ecs.Resource)
    : Prop :=
  (cpu = 0 ∧ ∃ r, r ∈ resources ∧ ecs.Name r = "CPU")
  ∨ (memory = 0 ∧ ∃ r, r ∈ resources ∧ ecs.Name r = "MEMORY").

(** * Properties *)

(** ** Machine integers *)

Section GoIntFacts.
Import GoInt.

Lemma wrap_in_int z : in_int z → wrap z = z.
Proof.
  unfold in_int, wrap, min_int, max_int. intros Hz.
  rewrite Z.mod_small by lia. lia.
Qed.

Lemma in_int_wrap z : in_int (wrap z).
Proof.
  unfold in_int, wrap, min_int, max_int.
  pose proof (Z.mod_pos_bound (z + 2 ^ 63) (2 ^ 64)). lia.
Qed.

Lemma wrap_wrap z : wrap (wrap z) = wrap z.
Proof. apply wrap_in_int, in_int_wrap. Qed.

Lemma wrap_add_r a b : wrap (a + wrap b) = wrap (a + b).
Proof.
  unfold wrap.
  replace (a + ((b + 2 ^ 63) mod 2 ^ 64 - 2 ^ 63) + 2 ^ 63)
    with (a + (b + 2 ^ 63) mod 2 ^ 64) by lia.
  rewrite Zplus_mod_idemp_r. do 2 f_equal. lia.
Qed.

Lemma wrap_add_l a b : wrap (wrap a + b) = wrap (a + b).
Proof. rewrite (Z.add_comm (wrap a)), wrap_add_r. f_equal. lia. Qed.

Lemma add_0_l z : in_int z → add 0 z = z.
Proof. intros. unfold add. rewrite Z.add_0_l. by apply wrap_in_int. Qed.

Lemma quo_nonzero x y : y ≠ 0 → quo x y = Some (wrap (x ÷ y)).
Proof. intros Hy. unfold quo. by destruct (Z.eqb_spec y 0). Qed.

Lemma quo_zero x : quo x 0 = None.
Proof. reflexivity. Qed.
End GoIntFacts.

(** ** Capacity calculator *)

Lemma capacity_cons name unit r rs :
  capacity name unit (r :: rs) =
    (if decide (ecs.Name r = name) then ecs.IntegerValue r ÷ unit else 0)
    + capacity name unit rs.
Proof.
  unfold capacity. rewrite filter_cons.
  destruct (decide (ecs.Name r = name)); [rewrite fmap_cons|]; simpl; lia.
Qed.

(** The loop adds, to either accumulator, the capacity of the vector for
    that resource name, in [int] arithmetic. *)
Lemma ContainersPossible_range_spec cpu memory rs byCPU byMemory :
  cpu ≠ 0 → memory ≠ 0 →
  GoInt.in_int byCPU → GoInt.in_int byMemory →
  ContainersPossible_range cpu memory rs byCPU byMemory =
    Some (GoInt.wrap (byCPU + cpu_capacity cpu rs),
          GoInt.wrap (byMemory + memory_capacity memory rs)).
Proof.
  intros Hc Hm. revert byCPU byMemory.
  induction rs as [|r rs IH]; intros a b Ha Hb.
  - simpl. unfold cpu_capacity, memory_capacity, capacity. simpl.
    rewrite !Z.add_0_r, !wrap_in_int; done.
  - simpl. unfold cpu_capacity, memory_capacity in *.
    rewrite !capacity_cons.
    destruct (String.eqb_spec (ecs.Name r) "CPU") as [E|E].
    + rewrite quo_nonzero by done. simpl.
      rewrite IH by (done || apply in_int_wrap).
      rewrite E. simpl. unfold GoInt.add.
      rewrite wrap_add_l, <- Z.add_assoc, (Z.add_comm (GoInt.wrap _)), Z.add_assoc.
      rewrite wrap_add_r. do 3 f_equal; lia.
    + destruct (String.eqb_spec (ecs.Name r) "MEMORY") as [E'|E'].
      * rewrite quo_nonzero by done. simpl.
        rewrite IH by (done || apply in_int_wrap).
        rewrite E'. simpl. unfold GoInt.add.
        rewrite wrap_add_l, <- Z.add_assoc, (Z.add_comm (GoInt.wrap _)), Z.add_assoc.
        rewrite wrap_add_r. do 3 f_equal; lia.
      * rewrite IH by done.
        rewrite !decide_False by done. done.
Qed.

(** For every footprint and resource vector, the result is the smaller of
    the two capacities, each reduced to an [int]. *)
Lemma ContainersPossible_wrap cpu memory rs :
  cpu ≠ 0 → memory ≠ 0 →
  ContainersPossible cpu memory rs =
    Some (Z.min (GoInt.wrap (cpu_capacity cpu rs))
                (GoInt.wrap (memory_capacity memory rs))).
Proof.
  intros Hc Hm. unfold ContainersPossible.
  rewrite ContainersPossible_range_spec by (done || (vm_compute; split; discriminate)).
  cbn [mbind option_bind]. unfold GoInt.add.
  rewrite !Z.add_0_l, !wrap_wrap.
  f_equal. destruct (Z.ltb_spec (GoInt.wrap (cpu_capacity cpu rs))
                                (GoInt.wrap (memory_capacity memory rs))); lia.
Qed.

(** A zero unit makes the division panic as soon as an entry of that name
    is met. *)
Lemma ContainersPossible_zero_cpu memory value rest :
  ContainersPossible 0 memory (ecs.mkResource "CPU" value :: rest) = None.
Proof. reflexivity. Qed.

Lemma ContainersPossible_zero_memory cpu value rest :
  cpu ≠ 0 →
  ContainersPossible cpu 0 (ecs.mkResource "MEMORY" value :: rest) = None.
Proof. reflexivity. Qed.

(** The loop panics exactly when it divides by zero. *)
Lemma ContainersPossible_range_panics cpu memory rs byCPU byMemory :
  ContainersPossible_range cpu memory rs byCPU byMemory = None ↔
  (cpu = 0 ∧ ∃ r, r ∈ rs ∧ ecs.Name r = "CPU")
  ∨ (memory = 0 ∧ ∃ r, r ∈ rs ∧ ecs.Name r = "MEMORY").
Proof.
  revert byCPU byMemory. induction rs as [|r rs IH]; intros a b.
  - simpl. split; [done|]. intros [[_ (r & []%elem_of_nil & _)]
                                   |[_ (r & []%elem_of_nil & _)]].
  - cbn [ContainersPossible_range].
    destruct (String.eqb_spec (ecs.Name r) "CPU") as [E|E].
    + unfold GoInt.quo. destruct (Z.eqb_spec cpu 0) as [->|Hc].
      * split; [|done]. intros _. left. split; [done|]. exists r. by split; [left|].
      * cbn [mbind option_bind]. rewrite IH. split.
        -- intros [[? ?]|[? (r' & ? & ?)]]; [done|].
           right. split; [done|]. exists r'. by split; [right|].
        -- intros [[? ?]|[? (r' & Hin & Hn)]]; [done|].
           right. split; [done|]. exists r'. split; [|done].
           apply elem_of_cons in Hin as [->|]; [|done]. by rewrite E in Hn.
    + destruct (String.eqb_spec (ecs.Name r) "MEMORY") as [E'|E'].
      * unfold GoInt.quo. destruct (Z.eqb_spec memory 0) as [->|Hm].
        -- split; [|done]. intros _. right. split; [done|].
           exists r. by split; [left|].
        -- cbn [mbind option_bind]. rewrite IH. split.
           ++ intros [[? (r' & ? & ?)]|[? ?]]; [|done].
              left. split; [done|]. exists r'. by split; [right|].
           ++ intros [[? (r' & Hin & Hn)]|[? ?]]; [|done].
              left. split; [done|]. exists r'. split; [|done].
              apply elem_of_cons in Hin as [->|]; [|done]. by rewrite E' in Hn.
      * rewrite IH. split.
        -- intros [[? (r' & ? & ?)]|[? (r' & ? & ?)]];
             [left|right]; (split; [done|]); exists r'; by split; [right|].
        -- intros [[? (r' & Hin & Hn)]|[? (r' & Hin & Hn)]];
             [left|right]; (split; [done|]); exists r'; (split; [|done]);
             (apply elem_of_cons in Hin as [->|]; [done|done]).
Qed.

(** Without a division by zero the loop returns, and has added, to either
    accumulator, the capacity of the vector for that resource name. *)
Lemma ContainersPossible_range_returns cpu memory rs byCPU byMemory :
  ¬ divides_by_zero cpu memory rs →
  GoInt.in_int byCPU → GoInt.in_int byMemory →
  ContainersPossible_range cpu memory rs byCPU byMemory =
    Some (GoInt.wrap (byCPU + cpu_capacity cpu rs),
          GoInt.wrap (byMemory + memory_capacity memory rs)).
Proof.
  revert byCPU byMemory.
  induction rs as [|r rs IH]; intros a b Hz Ha Hb.
  - simpl. unfold cpu_capacity, memory_capacity, capacity. simpl.
    rewrite !Z.add_0_r, !wrap_in_int; done.
  - assert (Hrs : ¬ divides_by_zero cpu memory rs).
    { intros [[? (r' & ? & ?)]|[? (r' & ? & ?)]]; apply Hz; [left|right];
        (split; [done|]); exists r'; by split; [right|]. }
    simpl. unfold cpu_capacity, memory_capacity in *.
    rewrite !capacity_cons.
    destruct (String.eqb_spec (ecs.Name r) "CPU") as [E|E].
    + assert (Hc : cpu ≠ 0).
      { intros ->. apply Hz. left. split; [done|]. exists r. by split; [left|]. }
      rewrite quo_nonzero by done. simpl.
      rewrite IH by (done || apply in_int_wrap).
      rewrite E. simpl. unfold GoInt.add.
      rewrite wrap_add_l, <- Z.add_assoc, (Z.add_comm (GoInt.wrap _)), Z.add_assoc.
      rewrite wrap_add_r. do 3 f_equal; lia.
    + destruct (String.eqb_spec (ecs.Name r) "MEMORY") as [E'|E'].
      * assert (Hm : memory ≠ 0).
        { intros ->. apply Hz. right. split; [done|].
          exists r. by split; [left|]. }
        rewrite quo_nonzero by done. simpl.
        rewrite IH by (done || apply in_int_wrap).
        rewrite E'. simpl. unfold GoInt.add.
        rewrite wrap_add_l, <- Z.add_assoc, (Z.add_comm (GoInt.wrap _)), Z.add_assoc.
        rewrite wrap_add_r. do 3 f_equal; lia.
      * rewrite IH by done.
        rewrite !decide_False by done. done.
Qed.

Lemma ContainersPossible_returns cpu memory rs :
  ¬ divides_by_zero cpu memory rs →
  ContainersPossible cpu memory rs =
    Some (Z.min (GoInt.wrap (cpu_capacity cpu rs))
                (GoInt.wrap (memory_capacity memory rs))).
Proof.
  intros Hz. unfold ContainersPossible.
  rewrite ContainersPossible_range_returns
    by (done || (vm_compute; split; discriminate)).
  cbn [mbind option_bind]. unfold GoInt.add.
  rewrite !Z.add_0_l, !wrap_wrap.
  f_equal. destruct (Z.ltb_spec (GoInt.wrap (cpu_capacity cpu rs))
                                (GoInt.wrap (memory_capacity memory rs))); lia.
Qed.

(** At units (1, 1) the resources CPU=9223372036854775807, CPU=1,
    MEMORY=5 have capacities 9223372036854775808 and 5, whose minimum is
    5; the sum of the two CPU quotients does not fit in an [int], and
    [ContainersPossible] returns -9223372036854775808.  At a zero CPU unit
    a vector with a CPU entry makes it panic. *)
Lemma ContainersPossible_not_min_of_capacities :
  ContainersPossible 1 1
    [ecs.mkResource "CPU" 9223372036854775807; ecs.mkResource "CPU" 1;
     ecs.mkResource "MEMORY" 5] = Some (-9223372036854775808)
  ∧ cpu_capacity 1
      [ecs.mkResource "CPU" 9223372036854775807; ecs.mkResource "CPU" 1;
       ecs.mkResource "MEMORY" 5]
    `min` memory_capacity 1
      [ecs.mkResource "CPU" 9223372036854775807; ecs.mkResource "CPU" 1;
       ecs.mkResource "MEMORY" 5] = 5
  ∧ ContainersPossible 0 2048
      [ecs.mkResource "CPU" 8192; ecs.mkResource "MEMORY" 8192] = None.
Proof. split; [|split]; reflexivity. Qed.

(** C1, as amended.  For every footprint and every resource vector:
    when a unit is zero and the vector has an entry of the matching name,
    [ContainersPossible] panics on the division; otherwise it returns the
    minimum of the CPU capacity and the memory capacity, each reduced to an
    [int] by wrap-around, where a capacity is the sum over the entries of
    that name of value div unit and entries of other names are ignored;
    this is the minimum of the two capacities themselves whenever both fit
    in an [int]. *)
Theorem ContainersPossible_min_of_capacities cpu memory resources :
  (divides_by_zero cpu memory resources →
   ContainersPossible cpu memory resources = None)
  ∧ (¬ divides_by_zero cpu memory resources →
     ContainersPossible cpu memory resources =
       Some (GoInt.wrap (cpu_capacity cpu resources)
             `min` GoInt.wrap (memory_capacity memory resources))
     ∧ (GoInt.in_int (cpu_capacity cpu resources) →
        GoInt.in_int (memory_capacity memory resources) →
        ContainersPossible cpu memory resources =
          Some (cpu_capacity cpu resources
                `min` memory_capacity memory resources))).
Proof.
  split.
  - intros Hz. unfold ContainersPossible.
    by rewrite (proj2 (ContainersPossible_range_panics cpu memory resources 0 0) Hz).
  - intros Hz. split; [by apply ContainersPossible_returns|].
    intros Hrc Hrm. rewrite ContainersPossible_returns by done.
    by rewrite !wrap_in_int.
Qed.

(** The three cases of the test suite: footprint (1024, 2048) with
    CPU=8192, MEMORY=8192 gives 4; with CPU=0 it gives 0; footprint
    (1024, 1024) with CPU=3072, MEMORY=8192 gives 3. *)
Lemma ContainersPossible_min_of_capacities_tests :
  ContainersPossible 1024 2048
    [ecs.mkResource "CPU" 8192; ecs.mkResource "MEMORY" 8192] = Some 4
  ∧ ContainersPossible 1024 2048
      [ecs.mkResource "CPU" 0; ecs.mkResource "MEMORY" 8192] = Some 0
  ∧ ContainersPossible 1024 1024
      [ecs.mkResource "CPU" 3072; ecs.mkResource "MEMORY" 8192] = Some 3.
Proof.
  split; [|split].
  - rewrite (proj2 (proj2 (ContainersPossible_min_of_capacities 1024 2048 _)
                      ltac:(by intros [[? _]|[? _]])));
      [reflexivity | vm_compute; split; discriminate
      | vm_compute; split; discriminate].
  - rewrite (proj2 (proj2 (ContainersPossible_min_of_capacities 1024 2048 _)
                      ltac:(by intros [[? _]|[? _]])));
      [reflexivity | vm_compute; split; discriminate
      | vm_compute; split; discriminate].
  - rewrite (proj2 (proj2 (ContainersPossible_min_of_capacities 1024 1024 _)
                      ltac:(by intros [[? _]|[? _]])));
      [reflexivity | vm_compute; split; discriminate
      | vm_compute; split; discriminate].
Defined.

(** ** Effects *)

Lemma extend_nil w : extend w [] = w.
Proof. destruct w. unfold extend. simpl. by rewrite app_nil_r. Qed.

Lemma extend_extend w evs evs' :
  extend (extend w evs) evs' = extend w (evs ++ evs').
Proof. unfold extend. simpl. by rewrite app_assoc. Qed.

Lemma emit_run e w : emit e w = Some (tt, extend w [e]).
Proof. reflexivity. Qed.

Lemma bind_run {A B} (m : M A) (k : A → M B) w a w' :
  m w = Some (a, w') → bind m k w = k a w'.
Proof. intros H. unfold bind. by rewrite H. Qed.

Lemma bind_inv {A B} (m : M A) (k : A → M B) w b w2 :
  bind m k w = Some (b, w2) →
  ∃ a w1, m w = Some (a, w1) ∧ k a w1 = Some (b, w2).
Proof.
  unfold bind. destruct (m w) as [[a w1]|]; [|done]. eauto.
Qed.

(** ** Task-footprint phase *)

Lemma running_max_nonneg l : 0 ≤ running_max l.
Proof. induction l; simpl; lia. Qed.



Lemma running_max_app l1 l2 :
  running_max (l1 ++ l2) = running_max l1 `max` running_max l2.
Proof.
  induction l1 as [|x l1 IH]; simpl.
  - pose proof (running_max_nonneg l2). lia.
  - rewrite IH. lia.
Qed.

Lemma MeasureResources_range_spec tasks cpu memory :
  0 ≤ cpu → 0 ≤ memory →
  MeasureResources_range tasks cpu memory =
    (cpu `max` running_max (task_cpu <$> tasks),
     memory `max` running_max (task_memory <$> tasks)).
Proof.
  revert cpu memory. induction tasks as [|t tasks IH]; intros cpu memory Hc Hm.
  - simpl. f_equal; lia.
  - rewrite !fmap_cons.
    change (running_max (task_cpu t :: (task_cpu <$> tasks)))
      with (task_cpu t `max` running_max (task_cpu <$> tasks)).
    change (running_max (task_memory t :: (task_memory <$> tasks)))
      with (task_memory t `max` running_max (task_memory <$> tasks)).
    unfold task_cpu at 1, task_memory at 1.
    cbn [MeasureResources_range].
    destruct (strconv.Atoi (ecs.Cpu t)) as [taskCPU ?].
    destruct (strconv.Atoi (ecs.Memory t)) as [taskMemory ?].
    cbn [fst].
    rewrite IH by (case_match; lia).
    f_equal;
      destruct (Z.ltb_spec cpu taskCPU), (Z.ltb_spec memory taskMemory); lia.
Qed.

Lemma MeasureResources_range_0 tasks :
  MeasureResources_range tasks 0 0 =
    (running_max (task_cpu <$> tasks), running_max (task_memory <$> tasks)).
Proof.
  rewrite MeasureResources_range_spec by done.
  pose proof (running_max_nonneg (task_cpu <$> tasks)).
  pose proof (running_max_nonneg (task_memory <$> tasks)).
  f_equal; lia.
Qed.

Lemma MeasureResources_run sn cluster tasks w :
  MeasureResources sn cluster tasks w =
    Some ((running_max (task_cpu <$> described_batch sn cluster tasks),
           running_max (task_memory <$> described_batch sn cluster tasks)),
          extend w [EvDescribeTasks cluster tasks]).
Proof.
  unfold MeasureResources, described_batch.
  rewrite (bind_run _ _ _ _ _ (emit_run _ _)).
  destruct (DescribeTasks (ECS sn) cluster tasks); [|done].
  unfold ret. by rewrite MeasureResources_range_0.
Qed.

Lemma MeasureCluster_range_run sn cluster batches cpu memory w :
  0 ≤ cpu → 0 ≤ memory →
  MeasureCluster_range sn cluster batches cpu memory w =
    Some ((cpu `max` running_max
                       (task_cpu <$> concat (described_batch sn cluster <$> batches)),
           memory `max` running_max
                          (task_memory <$> concat (described_batch sn cluster <$> batches))),
          extend w (EvDescribeTasks cluster <$> batches)).
Proof.
  revert cpu memory w. induction batches as [|tasks batches IH];
    intros cpu memory w Hc Hm.
  - simpl. unfold ret. rewrite extend_nil. do 3 f_equal; lia.
  - simpl. rewrite (bind_run _ _ _ _ _ (MeasureResources_run _ _ _ _)).
    pose proof (running_max_nonneg (task_cpu <$> described_batch sn cluster tasks)).
    pose proof (running_max_nonneg (task_memory <$> described_batch sn cluster tasks)).
    rewrite IH by (case_match; lia).
    rewrite extend_extend, !fmap_app, !running_max_app. simpl.
    set (a := running_max (task_cpu <$> described_batch sn cluster tasks)) in *.
    set (b := running_max (task_memory <$> described_batch sn cluster tasks)) in *.
    replace (if cpu <? a then a else cpu) with (cpu `max` a)
      by (destruct (Z.ltb_spec cpu a); lia).
    replace (if memory <? b then b else memory) with (memory `max` b)
      by (destruct (Z.ltb_spec memory b); lia).
    by rewrite !Z.max_assoc.
Qed.

Lemma DiscoverTasks_run sn cluster w :
  DiscoverTasks sn cluster w =
    Some (pages_seen (fst (ListTasksPages (ECS sn) cluster)),
          extend w [EvListTasksPages cluster]).
Proof. reflexivity. Qed.

Lemma footprint_run sn cluster w :
  footprint sn cluster w =
    Some ((running_max (task_cpu <$> described sn cluster),
           running_max (task_memory <$> described sn cluster)),
          extend w (footprint_events sn cluster)).
Proof.
  unfold footprint.
  rewrite (bind_run _ _ _ _ _ (DiscoverTasks_run _ _ _)).
  rewrite MeasureCluster_range_run by done.
  rewrite extend_extend. unfold described, footprint_events. simpl.
  pose proof (running_max_nonneg (task_cpu <$> described sn cluster)).
  pose proof (running_max_nonneg (task_memory <$> described sn cluster)).
  unfold described in *. do 3 f_equal; lia.
Qed.

(** ** Capacity phase *)

Lemma call_ContainersPossible_run cpu memory resources w :
  cpu ≠ 0 → memory ≠ 0 →
  call_ContainersPossible cpu memory resources w =
    Some (possible cpu memory resources,
          extend w [EvContainersPossible cpu memory resources]).
Proof.
  intros Hc Hm. unfold call_ContainersPossible.
  rewrite (bind_run _ _ _ _ _ (emit_run _ _)).
  unfold or_panic. by rewrite ContainersPossible_wrap.
Qed.

Lemma DescribeResourcesByInstanceType_range_run cpu memory containers cr w :
  cpu ≠ 0 → memory ≠ 0 →
  DescribeResourcesByInstanceType_range cpu memory containers cr w =
    Some (capacity_ledger cpu memory containers cr,
          extend w (capacity_events cpu memory containers)).
Proof.
  intros Hc Hm. revert cr w.
  induction containers as [|container containers IH]; intros cr w.
  - simpl. unfold ret. by rewrite extend_nil.
  - simpl.
    rewrite (bind_run _ _ _ _ _ (call_ContainersPossible_run _ _ _ _ Hc Hm)).
    rewrite (bind_run _ _ _ _ _ (call_ContainersPossible_run _ _ _ _ Hc Hm)).
    rewrite IH. by rewrite !extend_extend.
Qed.

Lemma ToMetricData_run cr w :
  ToMetricData cr w = Some (points cr (now w), tick w).
Proof. reflexivity. Qed.

Lemma ListContainerInstances_of_run sn cluster w :
  ListContainerInstances_of sn cluster w =
    Some (listed_instances sn cluster,
          extend w [EvListContainerInstances cluster "ACTIVE"]).
Proof.
  unfold ListContainerInstances_of, listed_instances.
  rewrite (bind_run _ _ _ _ _ (emit_run _ _)).
  by destruct (ListContainerInstances (ECS sn) cluster "ACTIVE").
Qed.

Lemma DescribeContainerInstances_of_run sn cluster instances w :
  DescribeContainerInstances_of sn cluster instances w =
    Some (match DescribeContainerInstances (ECS sn) cluster instances with
          | inl containers => containers
          | inr _ => []
          end,
          extend w [EvDescribeContainerInstances cluster instances]).
Proof.
  unfold DescribeContainerInstances_of.
  rewrite (bind_run _ _ _ _ _ (emit_run _ _)).
  by destruct (DescribeContainerInstances (ECS sn) cluster instances).
Qed.

Lemma DescribeResourcesByInstanceType_run sn cluster instances cpu memory w :
  cpu ≠ 0 → memory ≠ 0 →
  let containers :=
    match DescribeContainerInstances (ECS sn) cluster instances with
    | inl containers => containers
    | inr _ => []
    end in
  let w' :=
    extend w (EvDescribeContainerInstances cluster instances
              :: capacity_events cpu memory containers) in
  DescribeResourcesByInstanceType sn cluster instances cpu memory w =
    Some (points (capacity_ledger cpu memory containers
                    (NewClusterResources cluster)) (now w'),
          tick w').
Proof.
  intros Hc Hm. simpl. unfold DescribeResourcesByInstanceType.
  rewrite (bind_run _ _ _ _ _ (DescribeContainerInstances_of_run _ _ _ _)).
  rewrite (bind_run _ _ _ _ _
             (DescribeResourcesByInstanceType_range_run _ _ _ _ _ Hc Hm)).
  rewrite ToMetricData_run, extend_extend. done.
Qed.

(** The events of the capacity phase of a cluster. *)
Lemma MeasureCluster_run sn cluster w :
  let cpu := running_max (task_cpu <$> described sn cluster) in
  let memory := running_max (task_memory <$> described sn cluster) in
  MeasureCluster sn cluster w =
    if (cpu =? 0) || (memory =? 0)
    then Some ([], extend w (footprint_events sn cluster))
    else
      let w' :=
        extend w (footprint_events sn cluster
                  ++ EvListContainerInstances cluster "ACTIVE"
                  :: EvDescribeContainerInstances cluster
                       (listed_instances sn cluster)
                  :: capacity_events cpu memory (described_instances sn cluster)) in
      Some (points (capacity_ledger cpu memory (described_instances sn cluster)
                      (NewClusterResources cluster)) (now w'),
            tick w').
Proof.
  simpl. unfold MeasureCluster.
  rewrite (bind_run _ _ _ _ _ (footprint_run _ _ _)).
  destruct (Z.eqb_spec (running_max (task_cpu <$> described sn cluster)) 0)
    as [|Hc]; [done|].
  destruct (Z.eqb_spec (running_max (task_memory <$> described sn cluster)) 0)
    as [|Hm]; [done|].
  cbn [orb].
  rewrite (bind_run _ _ _ _ _ (ListContainerInstances_of_run _ _ _)).
  rewrite DescribeResourcesByInstanceType_run by done.
  unfold described_instances.
  rewrite !extend_extend. done.
Qed.







(** ** Empty clusters *)

Lemma footprint_events_no_container_instance sn cluster :
  Forall (λ e, container_instance_event e = false) (footprint_events sn cluster).
Proof.
  unfold footprint_events. constructor; [done|].
  apply Forall_fmap, Forall_true. done.
Qed.



(** ** The units of [ContainersPossible] *)

Local Arguments footprint_events : simpl never.
Local Arguments capacity_events : simpl never.

Lemma capacity_events_units cpu memory containers :
  0 < cpu → 0 < memory →
  Forall units_positive (capacity_events cpu memory containers)
  ∧ Forall call_returns (capacity_events cpu memory containers).
Proof.
  intros Hc Hm. unfold capacity_events.
  induction containers as [|container containers [IH1 IH2]];
    cbn [flat_map app]; [done|].
  split; repeat constructor; simpl; try done;
    rewrite ContainersPossible_wrap by lia; done.
Qed.

Lemma footprint_events_units sn cluster :
  Forall units_positive (footprint_events sn cluster)
  ∧ Forall call_returns (footprint_events sn cluster).
Proof.
  unfold footprint_events.
  split; (constructor; [done|]); apply Forall_fmap, Forall_true; done.
Qed.

Lemma MeasureCluster_units sn cluster w :
  ∃ out w' evs,
    MeasureCluster sn cluster w = Some (out, w')
    ∧ trace w' = trace w ++ evs
    ∧ Forall units_positive evs ∧ Forall call_returns evs.
Proof.
  rewrite MeasureCluster_run.
  pose proof (running_max_nonneg (task_cpu <$> described sn cluster)) as Hc.
  pose proof (running_max_nonneg (task_memory <$> described sn cluster)) as Hm.
  destruct (footprint_events_units sn cluster) as [F1 F2].
  destruct (Z.eqb_spec (running_max (task_cpu <$> described sn cluster)) 0)
    as [|Hc'].
  { exists [], (extend w (footprint_events sn cluster)),
      (footprint_events sn cluster). done. }
  destruct (Z.eqb_spec (running_max (task_memory <$> described sn cluster)) 0)
    as [|Hm'].
  { exists [], (extend w (footprint_events sn cluster)),
      (footprint_events sn cluster). done. }
  cbn [orb]. cbv zeta.
  destruct (capacity_events_units
              (running_max (task_cpu <$> described sn cluster))
              (running_max (task_memory <$> described sn cluster))
              (described_instances sn cluster)) as [G1 G2]; [lia..|].
  eexists _, _,
    (footprint_events sn cluster
     ++ EvListContainerInstances cluster "ACTIVE"
     :: EvDescribeContainerInstances cluster (listed_instances sn cluster)
     :: capacity_events (running_max (task_cpu <$> described sn cluster))
          (running_max (task_memory <$> described sn cluster))
          (described_instances sn cluster)).
  split; [reflexivity|]. split; [reflexivity|].
  split; (apply Forall_app; split; [done|]); repeat constructor; done.
Qed.

Lemma Measure_collect_units sn clusters w :
  ∃ out w' evs,
    Measure_collect sn clusters w = Some (out, w')
    ∧ trace w' = trace w ++ evs
    ∧ Forall units_positive evs ∧ Forall call_returns evs.
Proof.
  revert w. induction clusters as [|cluster clusters IH]; intros w.
  - exists [], w, []. simpl. by rewrite app_nil_r.
  - destruct (MeasureCluster_units sn cluster w)
      as (out1 & w1 & evs1 & H1 & T1 & P1 & R1).
    destruct (IH w1) as (out2 & w2 & evs2 & H2 & T2 & P2 & R2).
    exists (out1 ++ out2), w2, (evs1 ++ evs2). simpl.
    rewrite (bind_run _ _ _ _ _ H1), (bind_run _ _ _ _ _ H2).
    split; [done|]. rewrite T2, T1, app_assoc.
    split; [done|]. split; by apply Forall_app.
Qed.

(** C6.  In a measurement pass, of one cluster or of any number of
    clusters, every invocation of [ContainersPossible] has strictly positive
    units and returns: the pass never panics on a division by zero. *)
Theorem ContainersPossible_units_positive sn w :
  (∀ cluster, ∃ out w' evs,
      MeasureCluster sn cluster w = Some (out, w')
      ∧ trace w' = trace w ++ evs
      ∧ Forall units_positive evs ∧ Forall call_returns evs)
  ∧ (∀ clusters, ∃ out w' evs,
      Measure_collect sn clusters w = Some (out, w')
      ∧ trace w' = trace w ++ evs
      ∧ Forall units_positive evs ∧ Forall call_returns evs).
Proof.
  split; intros; [apply MeasureCluster_units | apply Measure_collect_units].
Qed.

(** ** The ledger and its metric points *)

Lemma Resources_to_list cr :
  map_to_list (Resources cr) ≡ₚ
    [("RemainingSchedulable", Remaining cr);
     ("RegisteredSchedulable", Registered cr);
     ("LowestCommonMultipleMemory", Memory cr);
     ("LowestCommonMultipleCPU", CPU cr)].
Proof.
  unfold Resources.
  rewrite !map_to_list_insert, map_to_list_empty; [done|..];
    by rewrite ?lookup_insert_ne, ?lookup_empty.
Qed.

(** The points of a ledger are those of its four maps, in some order. *)
Lemma points_maps cr t :
  points cr t ≡ₚ
    points_of (Cluster cr) "RemainingSchedulable" (Remaining cr) t
    ++ points_of (Cluster cr) "RegisteredSchedulable" (Registered cr) t
    ++ points_of (Cluster cr) "LowestCommonMultipleMemory" (Memory cr) t
    ++ points_of (Cluster cr) "LowestCommonMultipleCPU" (CPU cr) t.
Proof.
  unfold points. rewrite Resources_to_list. simpl. by rewrite app_nil_r.
Qed.

Lemma elem_of_points_of cluster name m t d :
  d ∈ points_of cluster name m t ↔
  ∃ instanceType value,
    m !! instanceType = Some value ∧ d = point cluster name instanceType value t.
Proof.
  unfold points_of. rewrite list_elem_of_fmap. split.
  - intros ([ty v] & -> & H%elem_of_map_to_list). eauto.
  - intros (ty & v & H & ->). exists (ty, v).
    split; [done|]. by apply elem_of_map_to_list.
Qed.

Lemma elem_of_points cr t d :
  d ∈ points cr t ↔
  ∃ name m instanceType value,
    (name, m) ∈ [("RemainingSchedulable", Remaining cr);
                 ("RegisteredSchedulable", Registered cr);
                 ("LowestCommonMultipleMemory", Memory cr);
                 ("LowestCommonMultipleCPU", CPU cr)]
    ∧ m !! instanceType = Some value
    ∧ d = point (Cluster cr) name instanceType value t.
Proof.
  rewrite points_maps, !elem_of_app, !elem_of_points_of. split.
  - intros [H|[H|[H|H]]]; destruct H as (ty & v & H & ->);
      eexists _, _, ty, v; (split; [|done]); set_solver.
  - intros (name & m & ty & v & Hm & H & ->).
    repeat (apply elem_of_cons in Hm as [[= -> ->]|Hm]); [eauto 10..|].
    by apply elem_of_nil in Hm.
Qed.

Lemma points_timestamp cr t :
  Forall (λ d, cloudwatch.Timestamp d = t) (points cr t).
Proof.
  apply Forall_forall. intros d (?&?&?&?&_&_&->)%elem_of_points. done.
Qed.

Lemma points_unit cr t :
  Forall (λ d, cloudwatch.Unit d = "Count") (points cr t).
Proof.
  apply Forall_forall. intros d (?&?&?&?&_&_&->)%elem_of_points. done.
Qed.

(** C10.  One conversion of a ledger reads the clock once, and every point
    it makes carries that reading; so all the points [MeasureCluster]
    returns for a cluster carry one and the same timestamp. *)
Theorem ToMetricData_one_timestamp sn cluster cr w :
  (∃ out, ToMetricData cr w = Some (out, tick w)
          ∧ Forall (λ d, cloudwatch.Timestamp d = now w) out)
  ∧ (∃ out w' t, MeasureCluster sn cluster w = Some (out, w')
                 ∧ Forall (λ d, cloudwatch.Timestamp d = t) out).
Proof.
  split.
  - exists (points cr (now w)). split; [apply ToMetricData_run|].
    apply points_timestamp.
  - rewrite MeasureCluster_run. cbv zeta. case_match.
    + exists [], (extend w (footprint_events sn cluster)), 0. by split.
    + eexists _, _, _. split; [reflexivity|]. apply points_timestamp.
Qed.

(** ** Completeness of the ledger *)

(** The instance types of a sequence of container instances. *)
Lemma capacity_ledger_dom cpu memory containers cr :
  let seen : gset string :=
    list_to_set ((λ c, getInstanceType (ecs.Attributes c)) <$> containers) in
  dom (CPU (capacity_ledger cpu memory containers cr)) = seen ∪ dom (CPU cr)
  ∧ dom (Memory (capacity_ledger cpu memory containers cr)) = seen ∪ dom (Memory cr)
  ∧ dom (Registered (capacity_ledger cpu memory containers cr))
    = seen ∪ dom (Registered cr)
  ∧ dom (Remaining (capacity_ledger cpu memory containers cr))
    = seen ∪ dom (Remaining cr).
Proof.
  revert cr. induction containers as [|c containers IH]; intros cr; simpl.
  - by rewrite !(left_id_L ∅ (∪)).
  - destruct (IH (record_instance cpu memory cr c)) as (H1 & H2 & H3 & H4).
    unfold capacity_ledger in *.
    rewrite H1, H2, H3, H4. simpl. rewrite !dom_insert_L.
    set (seen := list_to_set _).
    set (ty := getInstanceType (ecs.Attributes c)).
    by rewrite !(assoc_L (∪)), !(comm_L (∪) seen {[ty]}).
Qed.

(** C8.  After the capacity phase has processed any sequence of container
    instances into a fresh ledger (with the non-zero units the orchestrator
    passes), a label that is a key of one of the four maps is a key of all
    four; the keys are the instance types of the sequence. *)
Theorem ledger_complete cpu memory containers cluster w :
  cpu ≠ 0 → memory ≠ 0 →
  ∃ cr w',
    DescribeResourcesByInstanceType_range cpu memory containers
      (NewClusterResources cluster) w = Some (cr, w')
    ∧ (∀ label,
         is_Some (CPU cr !! label) ∨ is_Some (Memory cr !! label)
         ∨ is_Some (Registered cr !! label) ∨ is_Some (Remaining cr !! label) →
         is_Some (CPU cr !! label) ∧ is_Some (Memory cr !! label)
         ∧ is_Some (Registered cr !! label) ∧ is_Some (Remaining cr !! label))
    ∧ (∀ label,
         is_Some (CPU cr !! label) ↔
         ∃ c, c ∈ containers ∧ getInstanceType (ecs.Attributes c) = label).
Proof.
  intros Hc Hm.
  eexists _, _. split; [by apply DescribeResourcesByInstanceType_range_run|].
  destruct (capacity_ledger_dom cpu memory containers (NewClusterResources cluster))
    as (H1 & H2 & H3 & H4).
  simpl in *. rewrite dom_empty_L in *.
  split.
  - intros label. rewrite <- !elem_of_dom, H1, H2, H3, H4. tauto.
  - intros label. rewrite <- elem_of_dom, H1.
    rewrite elem_of_union, elem_of_list_to_set, list_elem_of_fmap.
    split.
    + intros [(c & -> & ?)|[]%elem_of_empty]. eauto.
    + intros (c & ? & <-). left. eauto.
Qed.

(** The three container instances of the test suite fill one key in each of
    the four maps. *)
Lemma ledger_complete_fake :
  ∃ cr w',
    DescribeResourcesByInstanceType_range 2560 3072
      (replicate 3 (Fake.NewFakeContainerInstance Fake.expectedRegistered
                      Fake.expectedRemaining))
      (NewClusterResources "fake-ecs-cluster") Fake.world = Some (cr, w')
    ∧ is_Some (CPU cr !! "fake.2xlarge") ∧ is_Some (Memory cr !! "fake.2xlarge")
    ∧ is_Some (Registered cr !! "fake.2xlarge")
    ∧ is_Some (Remaining cr !! "fake.2xlarge").
Proof.
  destruct (ledger_complete 2560 3072
              (replicate 3 (Fake.NewFakeContainerInstance Fake.expectedRegistered
                              Fake.expectedRemaining))
              "fake-ecs-cluster" Fake.world)
    as (cr & w' & Hrun & Hall & Hkeys); [lia | lia |].
  exists cr, w'. split; [exact Hrun|].
  apply Hall. left. apply Hkeys.
  exists (Fake.NewFakeContainerInstance Fake.expectedRegistered
            Fake.expectedRemaining).
  split; [by left | reflexivity].
Defined.

(** ** Round trip through the ledger *)

Lemma points_of_empty cluster name t : points_of cluster name ∅ t = [].
Proof. unfold points_of. by rewrite map_to_list_empty. Qed.

Lemma points_of_insert cluster name m ty v t :
  m !! ty = None →
  points_of cluster name (<[ty := v]> m) t ≡ₚ
    point cluster name ty v t :: points_of cluster name m t.
Proof.
  intros H. unfold points_of. by rewrite map_to_list_insert.
Qed.

Lemma index_empty ty : index ∅ ty = 0.
Proof. unfold index. by rewrite lookup_empty. Qed.

Lemma index_insert_ne m ty ty' v : ty ≠ ty' → index (<[ty := v]> m) ty' = index m ty'.
Proof. intros H. unfold index. by rewrite lookup_insert_ne. Qed.

Lemma time_Now_run w : time_Now w = Some (now w, tick w).
Proof. reflexivity. Qed.

Lemma now_tick w : now w ≤ now (tick w).
Proof.
  unfold now at 2. cbn [tick clock ticks].
  pose proof (N2Z.is_nonneg (hd 0%N (tl (ticks w)))). lia.
Qed.

(** C3.  Recording one instance type (1024, 2048, 13, 3) in a fresh ledger
    and converting gives exactly four points, one per metric name, each with
    the two dimensions cluster name and instance type, the unit "Count", the
    values 1024, 2048, 13 and 3, and a timestamp no earlier than a reading
    of the clock taken before the conversion.  Recording a second, distinct
    type as well gives eight points, the four of either type with its own
    values. *)
Theorem ledger_round_trip cluster ty ty2 c2 m2 r2 a2 w :
  ty ≠ ty2 → GoInt.in_int r2 → GoInt.in_int a2 →
  let cr1 := record ty 1024 2048 13 3 (NewClusterResources cluster) in
  let cr2 := record ty2 c2 m2 r2 a2 cr1 in
  ∃ before w1,
    time_Now w = Some (before, w1)
    ∧ (∃ out w2 t,
         ToMetricData cr1 w1 = Some (out, w2) ∧ before ≤ t
         ∧ out ≡ₚ [datum cluster "LowestCommonMultipleCPU" ty 1024 t;
                   datum cluster "LowestCommonMultipleMemory" ty 2048 t;
                   datum cluster "RegisteredSchedulable" ty 13 t;
                   datum cluster "RemainingSchedulable" ty 3 t])
    ∧ (∃ out w2 t,
         ToMetricData cr2 w1 = Some (out, w2) ∧ before ≤ t
         ∧ out ≡ₚ [datum cluster "LowestCommonMultipleCPU" ty 1024 t;
                   datum cluster "LowestCommonMultipleMemory" ty 2048 t;
                   datum cluster "RegisteredSchedulable" ty 13 t;
                   datum cluster "RemainingSchedulable" ty 3 t;
                   datum cluster "LowestCommonMultipleCPU" ty2
                     (GoInt.float64 c2) t;
                   datum cluster "LowestCommonMultipleMemory" ty2
                     (GoInt.float64 m2) t;
                   datum cluster "RegisteredSchedulable" ty2
                     (GoInt.float64 r2) t;
                   datum cluster "RemainingSchedulable" ty2
                     (GoInt.float64 a2) t]).
Proof.
  intros Hne Hr Ha. cbv zeta.
  exists (now w), (tick w). split; [apply time_Now_run|].
  split.
  - exists (points (record ty 1024 2048 13 3 (NewClusterResources cluster))
              (now (tick w))), (tick (tick w)), (now (tick w)).
    split; [apply ToMetricData_run|]. split; [apply now_tick|].
    rewrite points_maps. cbn [record NewClusterResources Cluster CPU Memory
                               Registered Remaining].
    rewrite !points_of_insert, !points_of_empty, !index_empty
      by apply lookup_empty.
    cbn [app]. unfold point.
    change (GoInt.float64 1024) with 1024.
    change (GoInt.float64 2048) with 2048.
    change (GoInt.float64 (GoInt.add 0 13)) with 13.
    change (GoInt.float64 (GoInt.add 0 3)) with 3.
    solve_Permutation.
  - exists (points (record ty2 c2 m2 r2 a2
                      (record ty 1024 2048 13 3 (NewClusterResources cluster)))
              (now (tick w))), (tick (tick w)), (now (tick w)).
    split; [apply ToMetricData_run|]. split; [apply now_tick|].
    rewrite points_maps. cbn [record NewClusterResources Cluster CPU Memory
                               Registered Remaining].
    rewrite !index_insert_ne, !index_empty by done.
    rewrite !add_0_l by done.
    rewrite !points_of_insert, !points_of_empty
      by (by rewrite ?lookup_insert_ne, ?lookup_empty).
    cbn [app]. unfold point.
    change (GoInt.float64 1024) with 1024.
    change (GoInt.float64 2048) with 2048.
    change (GoInt.float64 (GoInt.add 0 13)) with 13.
    change (GoInt.float64 (GoInt.add 0 3)) with 3.
    solve_Permutation.
Qed.

(** Two instance types that give four points each, through the theorem. *)
Lemma ledger_round_trip_example :
  ∃ before w1,
    time_Now Fake.world = Some (before, w1)
    ∧ (∃ out w2 t,
         ToMetricData (record "m5.large" 1024 2048 13 3
                         (NewClusterResources "my-shiny-cluster")) w1
           = Some (out, w2)
         ∧ before ≤ t ∧ length out = 4%nat)
    ∧ (∃ out w2 t,
         ToMetricData (record "c5.xlarge" 512 256 7 1
                         (record "m5.large" 1024 2048 13 3
                            (NewClusterResources "my-shiny-cluster"))) w1
           = Some (out, w2)
         ∧ before ≤ t ∧ length out = 8%nat).
Proof.
  destruct (ledger_round_trip "my-shiny-cluster" "m5.large" "c5.xlarge"
              512 256 7 1 Fake.world)
    as (before & w1 & Hnow & (out4 & w2 & t & H4 & L4 & P4)
        & (out8 & w2' & t' & H8 & L8 & P8));
    [discriminate | vm_compute; split; discriminate
    | vm_compute; split; discriminate |].
  exists before, w1. split; [exact Hnow|]. split.
  - exists out4, w2, t. split; [exact H4|]. split; [exact L4|].
    exact (Permutation_length P4).
  - exists out8, w2', t'. split; [exact H8|]. split; [exact L8|].
    exact (Permutation_length P8).
Defined.

(** ** The sign of the metric values *)

Lemma float64_nonneg v : 0 ≤ v → 0 ≤ GoInt.float64 v.
Proof.
  intros Hv. unfold GoInt.float64. case_match; [done|].
  apply Z.mul_nonneg_nonneg; [destruct v; done|].
  apply Z.mul_nonneg_nonneg; [|apply Z.pow_nonneg; lia].
  assert (0 ≤ Z.abs v / 2 ^ (Z.log2 (Z.abs v) - 52)) as Hq.
  { apply Z.div_pos; [lia|]. apply Z.pow_pos_nonneg; [lia|].
    assert (2 ^ 53 ≤ Z.abs v) as Hbig by (by apply Z.ltb_ge).
    pose proof (Z.log2_le_mono _ _ Hbig) as Hlog.
    rewrite Z.log2_pow2 in Hlog by lia. lia. }
  case_match; lia.
Qed.

Lemma sum_values_app rs1 rs2 :
  sum_values (rs1 ++ rs2) = sum_values rs1 + sum_values rs2.
Proof.
  unfold sum_values. induction rs1 as [|r rs1 IH]; csimpl; [done|].
  rewrite IH. lia.
Qed.

Lemma sum_values_nonneg rs :
  Forall (λ r, 0 ≤ ecs.IntegerValue r) rs → 0 ≤ sum_values rs.
Proof.
  unfold sum_values. induction 1 as [|r rs Hr _ IH]; csimpl; [done|].
  lia.
Qed.

Lemma resources_total_nonneg containers :
  Forall nonneg_instance containers → 0 ≤ resources_total containers.
Proof.
  unfold resources_total. induction 1 as [|c cs Hc _ IH]; csimpl; [done|].
  apply sum_values_nonneg in Hc. lia.
Qed.

Lemma capacity_bounds name unit rs :
  0 < unit → Forall (λ r, 0 ≤ ecs.IntegerValue r) rs →
  0 ≤ capacity name unit rs ≤ sum_values rs.
Proof.
  intros Hu. induction 1 as [|r rs Hr _ IH].
  - done.
  - rewrite capacity_cons.
    change (sum_values (r :: rs)) with (ecs.IntegerValue r + sum_values rs).
    assert (0 ≤ ecs.IntegerValue r ÷ unit ≤ ecs.IntegerValue r) as Hq.
    { rewrite Z.quot_div_nonneg by lia. split; [apply Z.div_pos; lia|].
      apply Z.div_le_upper_bound; [lia|nia]. }
    case_decide; lia.
Qed.

Lemma possible_bounds cpu memory rs :
  0 < cpu → 0 < memory →
  Forall (λ r, 0 ≤ ecs.IntegerValue r) rs →
  sum_values rs ≤ GoInt.max_int →
  0 ≤ possible cpu memory rs ≤ sum_values rs.
Proof.
  intros Hc Hm Hrs Hsum. unfold possible.
  pose proof (capacity_bounds "CPU" cpu rs Hc Hrs) as H1.
  pose proof (capacity_bounds "MEMORY" memory rs Hm Hrs) as H2.
  unfold cpu_capacity, memory_capacity.
  rewrite !wrap_in_int; [lia|..];
    unfold GoInt.in_int, GoInt.min_int, GoInt.max_int in *; lia.
Qed.

Lemma index_bounded B m ty : 0 ≤ B → bounded B m → 0 ≤ index m ty ≤ B.
Proof.
  intros HB Hm. unfold index.
  destruct (m !! ty) as [v|] eqn:E; simpl; [|lia]. exact (Hm _ _ E).
Qed.

Lemma bounded_insert B B' m ty v :
  B ≤ B' → 0 ≤ v ≤ B' → bounded B m → bounded B' (<[ty := v]> m).
Proof.
  intros HB Hv Hm. apply map_Forall_insert_2; [done|].
  eapply map_Forall_impl; [exact Hm|]. simpl. intros. lia.
Qed.

Lemma bounded_nonneg B m : bounded B m → map_Forall (λ _ v, 0 ≤ v) m.
Proof.
  intros Hm. eapply map_Forall_impl; [exact Hm|]. simpl. intros. lia.
Qed.

Lemma record_instance_bounded cpu memory cr c B :
  0 < cpu → 0 < memory → nonneg_instance c →
  0 ≤ B → B + sum_values (instance_resources c) ≤ GoInt.max_int →
  bounded B (Registered cr) → bounded B (Remaining cr) →
  bounded (B + sum_values (instance_resources c))
    (Registered (record_instance cpu memory cr c))
  ∧ bounded (B + sum_values (instance_resources c))
      (Remaining (record_instance cpu memory cr c)).
Proof.
  intros Hc Hm Hn HB Hmax HR1 HR2.
  unfold nonneg_instance, instance_resources in *.
  apply Forall_app in Hn as [Hreg Hrem].
  rewrite sum_values_app in *.
  pose proof (sum_values_nonneg _ Hreg) as Sreg.
  pose proof (sum_values_nonneg _ Hrem) as Srem.
  pose proof (possible_bounds cpu memory _ Hc Hm Hreg ltac:(lia)) as Preg.
  pose proof (possible_bounds cpu memory _ Hc Hm Hrem ltac:(lia)) as Prem.
  pose proof (index_bounded B (Registered cr)
                (getInstanceType (ecs.Attributes c)) HB HR1) as I1.
  pose proof (index_bounded B (Remaining cr)
                (getInstanceType (ecs.Attributes c)) HB HR2) as I2.
  unfold record_instance. cbn [record Registered Remaining]. unfold GoInt.add.
  split; (eapply bounded_insert; [| |done]; [lia|]);
    (rewrite wrap_in_int; [lia|]);
    unfold GoInt.in_int, GoInt.min_int, GoInt.max_int in *; lia.
Qed.

Lemma capacity_ledger_nonneg cpu memory containers :
  0 < cpu → 0 < memory → Forall nonneg_instance containers →
  ∀ cr B,
    0 ≤ B → B + resources_total containers ≤ GoInt.max_int →
    bounded B (Registered cr) → bounded B (Remaining cr) →
    map_Forall (λ _ v, 0 ≤ v) (CPU cr) →
    map_Forall (λ _ v, 0 ≤ v) (Memory cr) →
    let cr' := capacity_ledger cpu memory containers cr in
    map_Forall (λ _ v, 0 ≤ v) (CPU cr')
    ∧ map_Forall (λ _ v, 0 ≤ v) (Memory cr')
    ∧ map_Forall (λ _ v, 0 ≤ v) (Registered cr')
    ∧ map_Forall (λ _ v, 0 ≤ v) (Remaining cr').
Proof.
  intros Hc Hm. induction 1 as [|c cs Hn Hcs IH];
    intros cr B HB Hmax HR1 HR2 H1 H2.
  - simpl. repeat split; [done | done | by eapply bounded_nonneg..].
  - change (resources_total (c :: cs))
      with (sum_values (instance_resources c) + resources_total cs) in Hmax.
    pose proof (resources_total_nonneg _ Hcs) as Tcs.
    pose proof (sum_values_nonneg _ Hn) as Tc.
    destruct (record_instance_bounded cpu memory cr c B) as [HR1' HR2'];
      [done..|lia|done|done|].
    apply (IH (record_instance cpu memory cr c)
              (B + sum_values (instance_resources c)));
      [lia|lia|done|done|..];
      unfold record_instance; cbn [record CPU Memory];
      (apply map_Forall_insert_2; [lia|done]).
Qed.

(** The points of a ledger whose values are not negative. *)
Lemma points_nonneg cr t :
  map_Forall (λ _ v, 0 ≤ v) (CPU cr) →
  map_Forall (λ _ v, 0 ≤ v) (Memory cr) →
  map_Forall (λ _ v, 0 ≤ v) (Registered cr) →
  map_Forall (λ _ v, 0 ≤ v) (Remaining cr) →
  Forall (λ d, cloudwatch.Unit d = "Count" ∧ 0 ≤ cloudwatch.Value d) (points cr t).
Proof.
  intros H1 H2 H3 H4. apply Forall_forall.
  intros d (name & m & ty & v & Hm & Hv & ->)%elem_of_points.
  split; [done|]. simpl. apply float64_nonneg.
  repeat (apply elem_of_cons in Hm as [[= -> ->]|Hm]);
    [by eapply H4 | by eapply H3 | by eapply H2 | by eapply H1 |].
  by apply elem_of_nil in Hm.
Qed.

Lemma MeasureCluster_nonneg sn cluster w :
  Forall nonneg_instance (described_instances sn cluster) →
  resources_total (described_instances sn cluster) ≤ GoInt.max_int →
  ∃ out w',
    MeasureCluster sn cluster w = Some (out, w')
    ∧ Forall (λ d, cloudwatch.Unit d = "Count" ∧ 0 ≤ cloudwatch.Value d) out.
Proof.
  intros Hn Hmax. rewrite MeasureCluster_run. cbv zeta.
  pose proof (running_max_nonneg (task_cpu <$> described sn cluster)) as Hc.
  pose proof (running_max_nonneg (task_memory <$> described sn cluster)) as Hm.
  destruct (Z.eqb_spec (running_max (task_cpu <$> described sn cluster)) 0)
    as [|Hc']; [by eexists _, _|].
  destruct (Z.eqb_spec (running_max (task_memory <$> described sn cluster)) 0)
    as [|Hm']; [by eexists _, _|].
  cbn [orb]. eexists _, _. split; [reflexivity|].
  assert (0 < running_max (task_cpu <$> described sn cluster)) as Pc by lia.
  assert (0 < running_max (task_memory <$> described sn cluster)) as Pm by lia.
  destruct (capacity_ledger_nonneg _ _ _ Pc Pm Hn
              (NewClusterResources cluster) 0)
    as (H1 & H2 & H3 & H4);
    [done | lia | apply map_Forall_empty.. |].
  by apply points_nonneg.
Qed.



(** Without the condition on the sign the value can be negative: a
    container instance whose registered CPU is reported as -2048, in a
    cluster of footprint (1024, 1024), gives the point RegisteredSchedulable
    the value -2. *)
Lemma metric_value_negative :
  ∃ w',
    MeasureCluster (Fake.snitcher Fake.NegativeECS) "c" Fake.world =
      Some ([datum "c" "RegisteredSchedulable" "fake.2xlarge" (-2) 1;
             datum "c" "RemainingSchedulable" "fake.2xlarge" 0 1;
             datum "c" "LowestCommonMultipleCPU" "fake.2xlarge" 1024 1;
             datum "c" "LowestCommonMultipleMemory" "fake.2xlarge" 1024 1],
            w').
Proof. eexists. vm_compute. reflexivity. Qed.

Lemma MeasureCluster_unit sn cluster w :
  ∃ out w',
    MeasureCluster sn cluster w = Some (out, w')
    ∧ Forall (λ d, cloudwatch.Unit d = "Count") out
    ∧ (Forall nonneg_instance (described_instances sn cluster) →
       resources_total (described_instances sn cluster) ≤ GoInt.max_int →
       Forall (λ d, 0 ≤ cloudwatch.Value d) out).
Proof.
  assert (∃ out w', MeasureCluster sn cluster w = Some (out, w')
                    ∧ Forall (λ d, cloudwatch.Unit d = "Count") out)
    as (out & w' & E & U).
  { rewrite MeasureCluster_run. cbv zeta.
    case_match; eexists _, _; (split; [reflexivity|]); [done|apply points_unit]. }
  exists out, w'. split; [done|]. split; [done|].
  intros Hn Hmax.
  destruct (MeasureCluster_nonneg sn cluster w Hn Hmax) as (out1 & w1 & E1 & P).
  rewrite E in E1. injection E1 as <- _.
  eapply Forall_impl; [exact P|]. by intros d [_ ?].
Qed.

(** C9, as amended.  Every metric point of a measurement pass over any
    clusters has the unit "Count" and an integer value; the value is not
    negative when, in every cluster measured, the resource values of the
    described container instances are not negative and their total is at
    most the largest [int]. *)
Theorem metric_points_count_and_sign sn clusters w :
  ∃ out w',
    Measure_collect sn clusters w = Some (out, w')
    ∧ Forall (λ d, cloudwatch.Unit d = "Count") out
    ∧ ((∀ cluster, cluster ∈ clusters →
          Forall nonneg_instance (described_instances sn cluster)
          ∧ resources_total (described_instances sn cluster) ≤ GoInt.max_int) →
       Forall (λ d, 0 ≤ cloudwatch.Value d) out).
Proof.
  revert w. induction clusters as [|cluster clusters IH]; intros w.
  - by exists [], w.
  - destruct (MeasureCluster_unit sn cluster w) as (out1 & w1 & H1 & U1 & P1).
    destruct (IH w1) as (out2 & w2 & H2 & U2 & P2).
    exists (out1 ++ out2), w2. simpl.
    rewrite (bind_run _ _ _ _ _ H1), (bind_run _ _ _ _ _ H2).
    split; [done|]. split; [by apply Forall_app|].
    intros Hin. apply Forall_app. split.
    + destruct (Hin cluster) as [Hn Hmax]; [by left|]. by apply P1.
    + apply P2. intros c Hc. apply Hin. by right.
Qed.

(** The pass over the cluster of the test suite: its points count
    containers and none is negative. *)
Lemma metric_points_count_and_sign_fake :
  ∃ out w',
    Measure_collect (Fake.snitcher Fake.NewFakeECS) ["fake-ecs-cluster"]
      Fake.world = Some (out, w')
    ∧ Forall (λ d, cloudwatch.Unit d = "Count") out
    ∧ Forall (λ d, 0 ≤ cloudwatch.Value d) out.
Proof.
  destruct (metric_points_count_and_sign (Fake.snitcher Fake.NewFakeECS)
              ["fake-ecs-cluster"] Fake.world) as (out & w' & E & U & P).
  exists out, w'. split; [exact E|]. split; [exact U|].
  apply P. intros cluster _. split.
  - repeat constructor; vm_compute; discriminate.
  - vm_compute. discriminate.
Defined.

(** ** Publisher *)

Lemma chunks_concat {A} turns n (l : list A) :
  (0 < n)%nat → (length l ≤ turns)%nat → concat (chunks turns n l) = l.
Proof.
  intros Hn. revert l. induction turns as [|turns IH]; intros l Hl.
  - destruct l; [done|simpl in Hl; lia].
  - destruct l as [|x l]; [done|].
    cbn [chunks concat]. rewrite IH; [apply take_drop|].
    rewrite length_drop. simpl in *. lia.
Qed.

Lemma chunks_sizes {A} turns n (l : list A) :
  (0 < n)%nat →
  Forall (λ b, (0 < length b ≤ n)%nat) (chunks turns n l).
Proof.
  intros Hn. revert l. induction turns as [|turns IH]; intros l; [done|].
  destruct l as [|x l]; [done|].
  cbn [chunks]. constructor; [|apply IH].
  rewrite length_take. simpl. lia.
Qed.

Lemma chunks_full {A} turns n (l : list A) i b :
  chunks turns n l !! i = Some b →
  (S i < length (chunks turns n l))%nat →
  length b = n.
Proof.
  revert l i. induction turns as [|turns IH]; intros l i; [done|].
  destruct l as [|x l]; [done|]. cbn [chunks].
  destruct i as [|i]; simpl.
  - intros [= <-] Hlen. rewrite length_take.
    destruct turns as [|turns]; [simpl in Hlen; lia|].
    destruct (drop n (x :: l)) as [|y l'] eqn:E; [simpl in Hlen; lia|].
    assert (length (drop n (x :: l)) ≠ 0)%nat as Hd by (by rewrite E).
    rewrite length_drop in Hd. lia.
  - intros Hb Hlen. apply (IH (drop n (x :: l)) i); [done|lia].
Qed.

Lemma Publish_batch_run sn batch w :
  Publish_batch sn batch w =
    Some (tt, extend w (batch_events sn (trace w) batch)).
Proof.
  unfold Publish_batch, batch_events. cbv zeta.
  rewrite (bind_run _ _ _ _ _ (emit_run _ _)).
  destruct (Validate (CloudWatch sn) (Namespace sn) batch); [done|].
  rewrite emit_run, extend_extend. done.
Qed.

Lemma slice_chunk {A} (l : list A) i :
  (i < length l)%nat →
  slice l i (if (length l <? i + batchSize)%nat then length l
             else (i + batchSize)%nat)
  = take batchSize (drop i l).
Proof.
  intros Hi. unfold slice.
  destruct (Nat.ltb_spec (length l) (i + batchSize)).
  - rewrite !take_ge; [done|rewrite length_drop; lia..].
  - f_equal. lia.
Qed.

Lemma Publish_loop_run turns sn metricData i w :
  Publish_loop turns sn metricData i w =
    Some (tt, extend w (publish_events sn (trace w)
                          (chunks turns batchSize (drop i metricData)))).
Proof.
  revert i w. induction turns as [|turns IH]; intros i w.
  - simpl. unfold ret. by rewrite extend_nil.
  - cbn [Publish_loop]. destruct (Nat.ltb_spec i (length metricData)) as [Hi|Hi].
    + cbv zeta. rewrite slice_chunk by done.
      rewrite (bind_run _ _ _ _ _ (Publish_batch_run _ _ _)).
      rewrite IH, extend_extend.
      destruct (drop i metricData) as [|x l] eqn:E.
      { apply (f_equal length) in E. rewrite length_drop in E. simpl in E. lia. }
      cbn [chunks publish_events]. rewrite <- E, drop_drop. done.
    + rewrite drop_ge by done. unfold ret. simpl. by rewrite extend_nil.
Qed.

Lemma validated_app evs evs' : validated (evs ++ evs') = validated evs ++ validated evs'.
Proof. apply omap_app. Qed.

Lemma submitted_app evs evs' : submitted (evs ++ evs') = submitted evs ++ submitted evs'.
Proof. apply omap_app. Qed.

Lemma publish_events_validated sn tr batches :
  validated (publish_events sn tr batches) = batches.
Proof.
  revert tr. induction batches as [|b bs IH]; intros tr; [done|].
  cbn [publish_events]. rewrite validated_app, IH.
  unfold batch_events. cbv zeta.
  by destruct (Validate (CloudWatch sn) (Namespace sn) b).
Qed.

Lemma publish_events_submitted sn tr batches :
  submitted (publish_events sn tr batches) =
    filter (λ b, Validate (CloudWatch sn) (Namespace sn) b = None) batches.
Proof.
  revert tr. induction batches as [|b bs IH]; intros tr; [done|].
  cbn [publish_events]. rewrite submitted_app, IH, filter_cons.
  unfold batch_events. cbv zeta.
  destruct (Validate (CloudWatch sn) (Namespace sn) b) eqn:E.
  - by rewrite decide_False.
  - by rewrite decide_True.
Qed.

Lemma chunks_nil {A} turns n : chunks turns n (@nil A) = [].
Proof. by destruct turns. Qed.

Lemma chunks_lengths {A} turns n (l : list A) :
  (0 < n)%nat → (length l ≤ turns)%nat →
  length <$> chunks turns n l =
    replicate (length l / n) n
    ++ (if decide (length l mod n = 0)%nat then [] else [(length l mod n)%nat]).
Proof.
  intros Hn. revert l. induction turns as [|turns IH]; intros l Hl.
  - destruct l; [|simpl in Hl; lia]. simpl.
    rewrite Nat.Div0.div_0_l, Nat.Div0.mod_0_l. done.
  - destruct l as [|x l].
    { simpl. rewrite Nat.Div0.div_0_l, Nat.Div0.mod_0_l. done. }
    cbn [chunks]. rewrite fmap_cons, length_take.
    destruct (Nat.lt_ge_cases (length (x :: l)) n) as [Hlt|Hge].
    + rewrite drop_ge, chunks_nil by lia.
      rewrite Nat.div_small, Nat.mod_small by done.
      rewrite decide_False by (simpl; lia).
      rewrite Nat.min_r by lia. done.
    + rewrite IH by (rewrite length_drop; simpl in *; lia).
      rewrite length_drop.
      set (k := length (x :: l)) in *.
      assert (k `div` n = S ((k - n) `div` n))%nat as ->.
      { replace k with ((k - n) + 1 * n)%nat at 1 by lia.
        rewrite Nat.div_add by lia. lia. }
      assert (k `mod` n = (k - n) `mod` n)%nat as ->.
      { replace k with ((k - n) + 1 * n)%nat at 1 by lia.
        by rewrite Nat.Div0.mod_add. }
      rewrite Nat.min_l by lia. done.
Qed.

Lemma Publish_run sn metricData w :
  Publish sn metricData w =
    Some (tt, extend w (publish_events sn (trace w)
                          (chunks (length metricData) batchSize metricData))).
Proof. unfold Publish. by rewrite Publish_loop_run. Qed.


(** Forty-five metric points are validated as three batches of 20, 20 and 5
    points, in this order. *)
Theorem Publish_batches_45 sn metricData w :
  length metricData = 45%nat →
  ∃ b1 b2 b3 evs,
    Publish sn metricData w = Some (tt, extend w evs)
    ∧ metricData = b1 ++ b2 ++ b3
    ∧ length b1 = 20%nat ∧ length b2 = 20%nat ∧ length b3 = 5%nat
    ∧ validated evs = [b1; b2; b3].
Proof.
  intros Hlen.
  pose proof (chunks_lengths (length metricData) batchSize metricData
                ltac:(unfold batchSize; lia) ltac:(done)) as Hsizes.
  pose proof (chunks_concat (length metricData) batchSize metricData
                ltac:(unfold batchSize; lia) ltac:(done)) as Hcat.
  pose proof (Publish_run sn metricData w) as Hrun.
  pose proof (publish_events_validated sn (trace w)
                (chunks (length metricData) batchSize metricData)) as Hval.
  set (batches := chunks (length metricData) batchSize metricData) in *.
  rewrite Hlen in Hsizes.
  change (length <$> batches = [20; 20; 5]%nat) in Hsizes.
  destruct batches as [|b1 [|b2 [|b3 [|b4 bs]]]]; try done.
  injection Hsizes as H1 H2 H3.
  exists b1, b2, b3, (publish_events sn (trace w) [b1; b2; b3]).
  simpl in Hcat. rewrite app_nil_r in Hcat. done.
Qed.

Lemma Publish_batches_45_example :
  ∃ b1 b2 b3 evs,
    Publish (Fake.snitcher Fake.EmptyECS)
      (replicate 45 (datum "c" "RegisteredSchedulable" "t" 1 0)) Fake.world
      = Some (tt, extend Fake.world evs)
    ∧ replicate 45 (datum "c" "RegisteredSchedulable" "t" 1 0) = b1 ++ b2 ++ b3
    ∧ length b1 = 20%nat ∧ length b2 = 20%nat ∧ length b3 = 5%nat
    ∧ validated evs = [b1; b2; b3].
Proof.
  apply (Publish_batches_45 (Fake.snitcher Fake.EmptyECS)
           (replicate 45 (datum "c" "RegisteredSchedulable" "t" 1 0))
           Fake.world).
  reflexivity.
Defined.

(** C5.  [Publish] cuts the metric points into consecutive batches that
    keep the order: every batch has between 1 and 20 points and every batch
    but the last has 20, so that 45 points make three batches of 20, 20
    and 5 points.  The requests are, batch after batch, the validation of
    the batch followed by its submission if the batch is valid: every
    batch is validated, whatever became of the batches before it, and every
    valid batch is submitted, whatever the earlier submissions answered. *)
Theorem Publish_partitions sn metricData w :
  ∃ batches,
    Publish sn metricData w =
      Some (tt, extend w (publish_events sn (trace w) batches))
    ∧ concat batches = metricData
    ∧ Forall (λ b, (0 < length b ≤ 20)%nat) batches
    ∧ (∀ i b, batches !! i = Some b → (S i < length batches)%nat →
              length b = 20%nat)
    ∧ (length metricData = 45%nat → length <$> batches = [20; 20; 5]%nat)
    ∧ validated (publish_events sn (trace w) batches) = batches
    ∧ submitted (publish_events sn (trace w) batches) =
        filter (λ b, Validate (CloudWatch sn) (Namespace sn) b = None) batches.
Proof.
  exists (chunks (length metricData) batchSize metricData).
  split; [apply Publish_run|].
  split. { apply chunks_concat; [unfold batchSize; lia | done]. }
  split. { apply (chunks_sizes _ batchSize). unfold batchSize. lia. }
  split. { intros i b Hb Hi. by apply (chunks_full _ _ _ _ _ Hb). }
  split.
  { intros Hlen.
    rewrite (chunks_lengths (length metricData) batchSize metricData)
      by (unfold batchSize; lia).
    by rewrite Hlen. }
  split; [apply publish_events_validated|apply publish_events_submitted].
Qed.

(** ** Cluster names *)

Lemma prefix_append s r : String.prefix s (String.append s r) = true.
Proof.
  induction s as [|a s IH]; [by destruct r|]. simpl. by destruct (ascii_dec a a).
Qed.

Lemma prefix_append_l s p r :
  String.prefix s p = true → String.prefix s (String.append p r) = true.
Proof.
  revert p. induction s as [|a s IH]; intros p.
  { intros _. by destruct (String.append p r). }
  destruct p as [|b p]; [done|]. simpl.
  destruct (ascii_dec a b); [apply IH|done].
Qed.

Lemma prefix_split s p :
  String.prefix s p = true → ∃ r, p = String.append s r.
Proof.
  revert p. induction s as [|a s IH]; intros p; [by exists p|].
  destruct p as [|b p]; [done|]. simpl.
  destruct (ascii_dec a b) as [->|]; [|done].
  intros [r ->]%IH. by exists r.
Qed.

(** The separator does not overlap itself: where it starts inside [p]
    followed by the separator, it lies within [p]. *)
Lemma append_cons a s r :
  String.append (String a s) r = String a (String.append s r).
Proof. reflexivity. Qed.

Lemma prefix_cons a s b t :
  String.prefix (String a s) (String b t) =
    if ascii_dec a b then String.prefix s t else false.
Proof. reflexivity. Qed.

Lemma separator_unbordered p rest :
  String.prefix ":cluster/" (String.append p (String.append ":cluster/" rest)) = true →
  p = EmptyString ∨ String.prefix ":cluster/" p = true.
Proof.
  intros H.
  destruct p as [|a1 p]; [by left|right].
  rewrite append_cons, prefix_cons in H.
  destruct (ascii_dec _ a1) as [<-|]; [|done].
  do 8 (destruct p as [|? p]; [vm_compute in H; discriminate H|];
        rewrite append_cons, prefix_cons in H;
        match type of H with
        | context [ascii_dec ?x ?y] =>
            destruct (ascii_dec x y) as [<-|]; [|discriminate H]
        end).
  by destruct p.
Qed.

Lemma Contains_cons c s sep :
  strings.Contains (String c s) sep =
    String.prefix sep (String c s) || strings.Contains s sep.
Proof. reflexivity. Qed.

Lemma Split_without_separator s :
  strings.Contains s ":cluster/" = false →
  strings.Split s ":cluster/" = [s].
Proof.
  unfold strings.Split. induction s as [|c s IH]; [done|].
  rewrite Contains_cons. intros [Hp Hs]%orb_false_elim.
  cbn [strings.Split_from]. rewrite Hp, (IH Hs). done.
Qed.

Lemma Split_at_separator pre rest :
  strings.Contains pre ":cluster/" = false →
  strings.Split (String.append pre (String.append ":cluster/" rest)) ":cluster/" =
    pre :: strings.Split rest ":cluster/".
Proof.
  unfold strings.Split. induction pre as [|c pre IH]; intros Hpre.
  - by destruct rest.
  - rewrite Contains_cons in Hpre. apply orb_false_elim in Hpre as [Hp Hs].
    change (String.append (String c pre) (String.append ":cluster/" rest))
      with (String c (String.append pre (String.append ":cluster/" rest))).
    cbn [strings.Split_from].
    destruct (String.prefix ":cluster/"
                (String c (String.append pre (String.append ":cluster/" rest))))
      eqn:E.
    + apply (separator_unbordered (String c pre)) in E as [?|E]; [done|].
      by rewrite E in Hp.
    + by rewrite (IH Hs).
Qed.

Lemma Contains_first s :
  strings.Contains s ":cluster/" = true →
  ∃ pre rest,
    s = String.append pre (String.append ":cluster/" rest)
    ∧ strings.Contains pre ":cluster/" = false.
Proof.
  induction s as [|c s IH]; [done|].
  rewrite Contains_cons.
  destruct (String.prefix ":cluster/" (String c s)) eqn:E.
  - intros _. apply prefix_split in E as [rest ->]. by exists EmptyString, rest.
  - simpl. intros (pre & rest & -> & Hpre)%IH.
    exists (String c pre), rest. split; [done|].
    rewrite Contains_cons, Hpre, orb_false_r.
    destruct (String.prefix ":cluster/" (String c pre)) eqn:E'; [|done].
    apply (prefix_append_l _ _ (String.append ":cluster/" rest)) in E'.
    simpl in E, E'. by rewrite E' in E.
Qed.

Lemma Split_from_nonempty sep skip s : strings.Split_from sep skip s ≠ [].
Proof.
  revert skip. induction s as [|c s IH]; intros skip; [done|].
  cbn [strings.Split_from]. destruct skip as [|k]; [|apply IH].
  destruct (String.prefix sep (String c s)); [done|].
  by destruct (strings.Split_from sep 0 s).
Qed.

(** The name sent for an identifier is what follows ":cluster/", when the
    separator occurs neither before nor after: the identifier
    "arn:...:cluster/my-cluster" gives "my-cluster". *)
Lemma cluster_name_after_separator pre name :
  strings.Contains pre ":cluster/" = false →
  strings.Contains name ":cluster/" = false →
  cluster_name (String.append pre (String.append ":cluster/" name)) = Some name.
Proof.
  intros Hpre Hname. unfold cluster_name.
  by rewrite Split_at_separator, Split_without_separator.
Qed.

Lemma cluster_name_after_separator_example :
  cluster_name "arn:aws:ecs:ca-central-1:123456789012:cluster/my-cluster"
    = Some "my-cluster".
Proof.
  apply (cluster_name_after_separator
           "arn:aws:ecs:ca-central-1:123456789012" "my-cluster");
    reflexivity.
Defined.

(** Taking the second piece panics exactly for the identifiers that do not
    contain ":cluster/". *)
Lemma cluster_name_panics arn :
  cluster_name arn = None ↔ strings.Contains arn ":cluster/" = false.
Proof.
  unfold cluster_name. split.
  - intros H. destruct (strings.Contains arn ":cluster/") eqn:E; [|done].
    apply Contains_first in E as (pre & rest & -> & Hpre).
    rewrite Split_at_separator in H by done.
    unfold strings.Split in H.
    pose proof (Split_from_nonempty ":cluster/" 0 rest) as Hne.
    by destruct (strings.Split_from ":cluster/" 0 rest).
  - intros H. by rewrite Split_without_separator.
Qed.

(** [DiscoverClusters] sends one name for every identifier received, in
    order: when every identifier is a prefix, ":cluster/" and a name, with
    the separator nowhere else, the stream is the list of these names. *)
Theorem DiscoverClusters_names sn w names :
  Forall2
    (λ arn name,
       ∃ pre, arn = String.append pre (String.append ":cluster/" name)
              ∧ strings.Contains pre ":cluster/" = false
              ∧ strings.Contains name ":cluster/" = false)
    (seen_clusters sn) names →
  DiscoverClusters sn w = Some (names, extend w [EvListClustersPages]).
Proof.
  intros H. unfold DiscoverClusters.
  rewrite (bind_run _ _ _ _ _ (emit_run _ _)).
  fold (seen_clusters sn).
  assert (mapM cluster_name (seen_clusters sn) = Some names) as ->; [|done].
  apply mapM_Some. eapply Forall2_impl; [exact H|].
  intros arn name (pre & -> & Hpre & Hname).
  by apply cluster_name_after_separator.
Qed.

(** The three clusters of the test suite. *)
Lemma DiscoverClusters_names_fake :
  DiscoverClusters (Fake.snitcher Fake.NewFakeECS) Fake.world =
    Some (["fake-ecs-cluster"; "another-fake-ecs-cluster";
           "who-even-uses-fargate"],
          extend Fake.world [EvListClustersPages]).
Proof.
  apply (DiscoverClusters_names (Fake.snitcher Fake.NewFakeECS) Fake.world).
  repeat constructor;
    exists "arn:aws:ecs:us-east-1:123456789012"; repeat split; reflexivity.
Defined.

Lemma DiscoverClusters_None sn w :
  DiscoverClusters sn w = None ↔
  Exists (λ arn, strings.Contains arn ":cluster/" = false) (seen_clusters sn).
Proof.
  unfold DiscoverClusters.
  rewrite (bind_run _ _ _ _ _ (emit_run _ _)).
  fold (seen_clusters sn). unfold or_panic.
  destruct (mapM cluster_name (seen_clusters sn)) as [names|] eqn:E.
  - split; [done|]. intros Hex.
    apply mapM_Some in E. apply Exists_exists in Hex as (arn & Hin & Hc).
    apply list_elem_of_lookup in Hin as [i Hi].
    destruct (Forall2_lookup_l _ _ _ _ _ E Hi) as (name & _ & Hname).
    apply cluster_name_panics in Hc. congruence.
  - split; [|done]. intros _.
    apply eq_None_not_Some in E. rewrite mapM_is_Some in E.
    apply not_Forall_Exists in E; [|intros arn; apply _].
    eapply Exists_impl; [exact E|]. intros arn Hn.
    apply cluster_name_panics. simpl in Hn.
    by destruct (cluster_name arn); [destruct Hn|].
Qed.

(** [DiscoverClusters] panics exactly when one of the identifiers received
    does not contain ":cluster/": the slice [strings.Split] returns has no
    second element then. *)
Theorem DiscoverClusters_panics sn w :
  DiscoverClusters sn w = None ↔
  Exists (λ arn, strings.Contains arn ":cluster/" = false) (seen_clusters sn).
Proof. apply DiscoverClusters_None. Qed.




(** ** Paging *)

(** The callback sees the pages up to the first empty one, that one
    included, and nothing after it. *)
Lemma pages_seen_spec {A} (before rest : list (list A)) :
  Forall (λ page, page ≠ []) before →
  rest = [] ∨ (∃ after, rest = [] :: after) →
  pages_seen (before ++ rest) = before ++ take 1 rest.
Proof.
  intros Hb Hrest. induction Hb as [|page before Hp _ IH].
  - destruct Hrest as [->|[after ->]]; done.
  - simpl. rewrite IH. by destruct page.
Qed.

(** [DiscoverTasks] sends the pages of task identifiers up to the first
    empty page, sends that empty page too, and requests nothing after it;
    an error of the listing changes nothing of what is sent. *)
Theorem DiscoverTasks_until_empty_page sn cluster w before rest err :
  ListTasksPages (ECS sn) cluster = (before ++ rest, err) →
  Forall (λ page, page ≠ []) before →
  rest = [] ∨ (∃ after, rest = [] :: after) →
  DiscoverTasks sn cluster w =
    Some (before ++ take 1 rest, extend w [EvListTasksPages cluster]).
Proof.
  intros Hpages Hb Hrest.
  rewrite DiscoverTasks_run, Hpages. simpl fst.
  by rewrite pages_seen_spec.
Qed.

Lemma DiscoverTasks_until_empty_page_example :
  DiscoverTasks
    (Fake.snitcher
       {| ListClustersPages := ([], None);
          ListTasksPages := λ _, ([["task/1"; "task/2"]; []; ["task/3"]], None);
          DescribeTasks := λ _ _, inl [];
          ListContainerInstances := λ _ _, inl [];
          DescribeContainerInstances := λ _ _, inl [] |})
    "c" Fake.world =
    Some ([["task/1"; "task/2"]; []], extend Fake.world [EvListTasksPages "c"]).
Proof.
  apply (DiscoverTasks_until_empty_page _ "c" Fake.world
           [["task/1"; "task/2"]] [[]; ["task/3"]] None).
  - reflexivity.
  - by repeat constructor.
  - right. by exists [["task/3"]].
Defined.

(** ** Instance types *)

(** [getInstanceType] skips the attributes of other names: without an
    attribute "ecs.instance-type" the label is empty, and otherwise it is
    the value of the first such attribute. *)
Theorem getInstanceType_first before :
  Forall (λ attr, ecs.attr_Name attr ≠ "ecs.instance-type") before →
  getInstanceType before = ""
  ∧ ∀ value after,
      getInstanceType
        (before ++ ecs.mkAttribute "ecs.instance-type" value :: after) = value.
Proof.
  induction 1 as [|attr before Hattr _ [IH1 IH2]]; [done|].
  apply String.eqb_neq in Hattr. simpl. rewrite Hattr. done.
Qed.

(** The attributes of [Test_getInstanceType]. *)
Lemma getInstanceType_first_test :
  getInstanceType
    [ecs.mkAttribute "ecs.missing-instance-type" "missing";
     ecs.mkAttribute "ecs.instance-type" "wanted.2xl"] = "wanted.2xl"
  ∧ getInstanceType [] = "".
Proof.
  split.
  - apply (proj2 (getInstanceType_first
                    [ecs.mkAttribute "ecs.missing-instance-type" "missing"]
                    ltac:(by repeat constructor))
             "wanted.2xl" []).
  - done.
Defined.

(** ** Division by zero *)

(** [ContainersPossible] panics exactly when a unit is zero and the
    resource vector has an entry of the matching name; with a zero unit and
    no such entry it returns. *)
Theorem ContainersPossible_panics cpu memory resources :
  ContainersPossible cpu memory resources = None ↔
  (cpu = 0 ∧ ∃ r, r ∈ resources ∧ ecs.Name r = "CPU")
  ∨ (memory = 0 ∧ ∃ r, r ∈ resources ∧ ecs.Name r = "MEMORY").
Proof.
  rewrite <- (ContainersPossible_range_panics cpu memory resources 0 0).
  unfold ContainersPossible.
  by destruct (ContainersPossible_range cpu memory resources 0 0) as [[? ?]|].
Qed.

(** ** What the ledger holds after the capacity phase *)

Lemma of_type_cons t c cs :
  of_type t (c :: cs) =
    if decide (getInstanceType (ecs.Attributes c) = t)
    then c :: of_type t cs else of_type t cs.
Proof. unfold of_type. by rewrite filter_cons. Qed.

Lemma index_insert_eq m t v : index (<[t := v]> m) t = v.
Proof. unfold index. by rewrite lookup_insert_eq. Qed.

Lemma capacity_ledger_cons cpu memory c cs cr :
  capacity_ledger cpu memory (c :: cs) cr =
    capacity_ledger cpu memory cs (record_instance cpu memory cr c).
Proof. reflexivity. Qed.

Lemma capacity_ledger_footprint cpu memory cs cr t :
  CPU (capacity_ledger cpu memory cs cr) !! t =
    (if decide (of_type t cs = []) then CPU cr !! t else Some cpu)
  ∧ Memory (capacity_ledger cpu memory cs cr) !! t =
      (if decide (of_type t cs = []) then Memory cr !! t else Some memory).
Proof.
  revert cr. induction cs as [|c cs IH]; intros cr; [done|].
  rewrite capacity_ledger_cons.
  destruct (IH (record_instance cpu memory cr c)) as [-> ->].
  rewrite of_type_cons. unfold record_instance. cbn [record CPU Memory].
  destruct (decide (getInstanceType (ecs.Attributes c) = t)) as [->|Hne].
  - rewrite !lookup_insert_eq. rewrite (decide_False (P := _ :: _ = [])) by done.
    by case_decide.
  - by rewrite !lookup_insert_ne.
Qed.

Lemma capacity_ledger_counts cpu memory cs cr t :
  Registered (capacity_ledger cpu memory cs cr) !! t =
    (if decide (of_type t cs = []) then Registered cr !! t
     else Some (GoInt.wrap (index (Registered cr) t
                            + registered_sum cpu memory (of_type t cs))))
  ∧ Remaining (capacity_ledger cpu memory cs cr) !! t =
      (if decide (of_type t cs = []) then Remaining cr !! t
       else Some (GoInt.wrap (index (Remaining cr) t
                              + remaining_sum cpu memory (of_type t cs)))).
Proof.
  revert cr. induction cs as [|c cs IH]; intros cr; [done|].
  rewrite capacity_ledger_cons.
  destruct (IH (record_instance cpu memory cr c)) as [-> ->].
  rewrite of_type_cons. unfold record_instance.
  cbn [record Registered Remaining].
  destruct (decide (getInstanceType (ecs.Attributes c) = t)) as [->|Hne].
  - rewrite !(decide_False (P := _ :: _ = [])) by done.
    rewrite !index_insert_eq, !lookup_insert_eq.
    unfold registered_sum, remaining_sum. rewrite !fmap_cons. cbn [foldr].
    unfold GoInt.add.
    case_decide as E.
    + rewrite E. cbn [fmap list_fmap foldr]. by rewrite !Z.add_0_r.
    + by rewrite !wrap_add_l, !Z.add_assoc.
  - unfold index. by rewrite !lookup_insert_ne.
Qed.

(** After the capacity phase over a fresh ledger, an instance type that no
    container instance has is in none of the four maps; one that some have
    holds the footprint of the cluster, and for either count the sum, in
    [int] arithmetic, of what [ContainersPossible] returns for the
    container instances of that type. *)
Theorem ledger_accumulates cpu memory containers cluster w :
  cpu ≠ 0 → memory ≠ 0 →
  ∃ cr w',
    DescribeResourcesByInstanceType_range cpu memory containers
      (NewClusterResources cluster) w = Some (cr, w')
    ∧ ∀ t,
        if decide (of_type t containers = [])
        then CPU cr !! t = None ∧ Memory cr !! t = None
             ∧ Registered cr !! t = None ∧ Remaining cr !! t = None
        else CPU cr !! t = Some cpu ∧ Memory cr !! t = Some memory
             ∧ Registered cr !! t =
                 Some (GoInt.wrap (registered_sum cpu memory (of_type t containers)))
             ∧ Remaining cr !! t =
                 Some (GoInt.wrap (remaining_sum cpu memory (of_type t containers))).
Proof.
  intros Hc Hm. eexists _, _.
  split; [by apply DescribeResourcesByInstanceType_range_run|].
  intros t.
  destruct (capacity_ledger_footprint cpu memory containers
              (NewClusterResources cluster) t) as [-> ->].
  destruct (capacity_ledger_counts cpu memory containers
              (NewClusterResources cluster) t) as [-> ->].
  case_decide; [done|]. by rewrite !index_empty, !Z.add_0_l.
Qed.

(** The three container instances of the test suite: three times the count
    of one. *)
Lemma ledger_accumulates_fake :
  ∃ cr w',
    DescribeResourcesByInstanceType_range 2560 3072
      (replicate 3 (Fake.NewFakeContainerInstance Fake.expectedRegistered
                      Fake.expectedRemaining))
      (NewClusterResources "fake-ecs-cluster") Fake.world = Some (cr, w')
    ∧ CPU cr !! "fake.2xlarge" = Some 2560
    ∧ Memory cr !! "fake.2xlarge" = Some 3072
    ∧ Registered cr !! "fake.2xlarge" = Some 9
    ∧ Remaining cr !! "fake.2xlarge" = Some 6.
Proof.
  destruct (ledger_accumulates 2560 3072
              (replicate 3 (Fake.NewFakeContainerInstance Fake.expectedRegistered
                              Fake.expectedRemaining))
              "fake-ecs-cluster" Fake.world)
    as (cr & w' & Hrun & Hall); [lia | lia |].
  exists cr, w'. split; [exact Hrun|].
  exact (Hall "fake.2xlarge").
Defined.

(** ** The points of a cluster *)

Lemma length_points cr t :
  length (points cr t) =
    (size (CPU cr) + size (Memory cr) + size (Registered cr)
     + size (Remaining cr))%nat.
Proof.
  rewrite points_maps, !length_app. unfold points_of.
  rewrite !length_fmap, !length_map_to_list. lia.
Qed.

Lemma capacity_ledger_sizes cpu memory containers cluster :
  let cr := capacity_ledger cpu memory containers (NewClusterResources cluster) in
  size (CPU cr) = size (instance_types containers)
  ∧ size (Memory cr) = size (instance_types containers)
  ∧ size (Registered cr) = size (instance_types containers)
  ∧ size (Remaining cr) = size (instance_types containers).
Proof.
  destruct (capacity_ledger_dom cpu memory containers (NewClusterResources cluster))
    as (H1 & H2 & H3 & H4).
  simpl in *. rewrite dom_empty_L, (right_id_L ∅ (∪)) in H1, H2, H3, H4.
  rewrite <- !size_dom, H1, H2, H3, H4. done.
Qed.

Lemma capacity_ledger_cluster cpu memory containers cr :
  Cluster (capacity_ledger cpu memory containers cr) = Cluster cr.
Proof.
  revert cr. induction containers as [|c cs IH]; intros cr; [done|].
  by rewrite capacity_ledger_cons, IH.
Qed.

Lemma MeasureCluster_length sn cluster w :
  ∃ out w',
    MeasureCluster sn cluster w = Some (out, w')
    ∧ length out =
        if decide (running_max (task_cpu <$> described sn cluster) = 0
                   ∨ running_max (task_memory <$> described sn cluster) = 0)
        then 0%nat
        else (4 * size (instance_types (described_instances sn cluster)))%nat.
Proof.
  rewrite MeasureCluster_run. cbv zeta.
  destruct (Z.eqb_spec (running_max (task_cpu <$> described sn cluster)) 0)
    as [Hc|Hc].
  { eexists _, _. split; [done|]. rewrite decide_True by by left. done. }
  destruct (Z.eqb_spec (running_max (task_memory <$> described sn cluster)) 0)
    as [Hm|Hm].
  { eexists _, _. split; [done|]. rewrite decide_True by by right. done. }
  cbn [orb]. eexists _, _. split; [done|].
  rewrite decide_False by tauto. rewrite length_points.
  destruct (capacity_ledger_sizes
              (running_max (task_cpu <$> described sn cluster))
              (running_max (task_memory <$> described sn cluster))
              (described_instances sn cluster) cluster) as (-> & -> & -> & ->).
  lia.
Qed.

(** The list of points a call of [MeasureCluster] returns is empty for a
    cluster whose footprint has a zero component, and otherwise has four
    points for every distinct instance type among the container instances
    described. *)
Theorem MeasureCluster_point_count sn cluster w out w' :
  MeasureCluster sn cluster w = Some (out, w') →
  length out =
    if decide (running_max (task_cpu <$> described sn cluster) = 0
               ∨ running_max (task_memory <$> described sn cluster) = 0)
    then 0%nat
    else (4 * size (instance_types (described_instances sn cluster)))%nat.
Proof.
  intros E.
  destruct (MeasureCluster_length sn cluster w) as (out0 & w0 & E0 & L).
  rewrite E in E0. by injection E0 as <- _.
Qed.

(** The cluster of the test suite, with its three container instances of
    one type: four points. *)
Lemma MeasureCluster_point_count_fake :
  ∃ out w',
    MeasureCluster (Fake.snitcher Fake.NewFakeECS) "fake-ecs-cluster" Fake.world
      = Some (out, w')
    ∧ length out = 4%nat.
Proof.
  destruct (MeasureCluster_length
              (Fake.snitcher Fake.NewFakeECS) "fake-ecs-cluster" Fake.world)
    as (out & w' & E & _).
  exists out, w'. split; [exact E|].
  rewrite (MeasureCluster_point_count _ _ _ _ _ E). reflexivity.
Defined.

(** Every point [MeasureCluster] returns has one of the four metric names,
    the two dimensions cluster name and instance type, in this order, the
    instance type being that of a container instance described, and the
    unit "Count". *)
Theorem MeasureCluster_point_shape sn cluster w :
  ∃ out w',
    MeasureCluster sn cluster w = Some (out, w')
    ∧ Forall
        (λ d, ∃ name instanceType value timestamp,
            d = datum cluster name instanceType value timestamp
            ∧ name ∈ ["LowestCommonMultipleCPU"; "LowestCommonMultipleMemory";
                      "RegisteredSchedulable"; "RemainingSchedulable"]
            ∧ instanceType ∈ instance_types (described_instances sn cluster))
        out.
Proof.
  rewrite MeasureCluster_run. cbv zeta. case_match.
  { by eexists _, _. }
  eexists _, _. split; [done|]. apply Forall_forall.
  intros d (name & m & ty & v & Hm & Hv & ->)%elem_of_points.
  exists name, ty, (GoInt.float64 v). eexists.
  split; [unfold point; by rewrite capacity_ledger_cluster|].
  destruct (capacity_ledger_dom
              (running_max (task_cpu <$> described sn cluster))
              (running_max (task_memory <$> described sn cluster))
              (described_instances sn cluster) (NewClusterResources cluster))
    as (H1 & H2 & H3 & H4).
  simpl in H1, H2, H3, H4.
  rewrite dom_empty_L, (right_id_L ∅ (∪)) in H1, H2, H3, H4.
  fold (instance_types (described_instances sn cluster)) in H1, H2, H3, H4.
  repeat (apply elem_of_cons in Hm as [[= -> ->]|Hm]);
    [| | | |by apply elem_of_nil in Hm];
    (split; [by repeat constructor|]);
    [rewrite <- H4 | rewrite <- H3 | rewrite <- H2 | rewrite <- H1];
    by apply elem_of_dom.
Qed.

(** When the description of the container instances fails, or describes
    none, [MeasureCluster] returns no point, whatever the footprint. *)
Theorem MeasureCluster_without_instances sn cluster w :
  (∃ err, DescribeContainerInstances (ECS sn) cluster
            (listed_instances sn cluster) = inr err)
  ∨ DescribeContainerInstances (ECS sn) cluster
      (listed_instances sn cluster) = inl [] →
  ∃ w', MeasureCluster sn cluster w = Some ([], w').
Proof.
  intros H.
  assert (described_instances sn cluster = []) as E.
  { unfold described_instances. by destruct H as [[err ->] | ->]. }
  rewrite MeasureCluster_run. cbv zeta. rewrite E.
  case_match; eexists; reflexivity.
Qed.

(** A failing fake: the cluster runs tasks, the description of its
    container instances fails. *)
Lemma MeasureCluster_without_instances_example :
  ∃ w',
    MeasureCluster
      (Fake.snitcher
         {| ListClustersPages := ([], None);
            ListTasksPages := λ _, ([["task/1"]], None);
            DescribeTasks := λ _ _, inl [ecs.mkTask "256" "512"];
            ListContainerInstances := λ _ _, inl ["container-instance/1"];
            DescribeContainerInstances := λ _ _, inr (Err "throttled") |})
      "c" Fake.world = Some ([], w').
Proof.
  apply MeasureCluster_without_instances. left. by exists (Err "throttled").
Defined.

(** ** The whole run *)

Lemma MeasureCluster_no_cloudwatch sn cluster w :
  ∃ out w' evs,
    MeasureCluster sn cluster w = Some (out, w')
    ∧ trace w' = trace w ++ evs
    ∧ Forall (λ e, cloudwatch_event e = false) evs.
Proof.
  rewrite MeasureCluster_run. cbv zeta.
  assert (Forall (λ e, cloudwatch_event e = false) (footprint_events sn cluster))
    as F.
  { unfold footprint_events. constructor; [done|].
    apply Forall_fmap, Forall_true. done. }
  case_match.
  { exists [], (extend w (footprint_events sn cluster)),
      (footprint_events sn cluster). done. }
  eexists _, _,
    (footprint_events sn cluster
     ++ EvListContainerInstances cluster "ACTIVE"
     :: EvDescribeContainerInstances cluster (listed_instances sn cluster)
     :: capacity_events (running_max (task_cpu <$> described sn cluster))
          (running_max (task_memory <$> described sn cluster))
          (described_instances sn cluster)).
  split; [reflexivity|]. split; [reflexivity|].
  apply Forall_app. split; [done|]. do 2 (constructor; [done|]).
  unfold capacity_events.
  induction (described_instances sn cluster) as [|c cs IH]; [done|].
  cbn [flat_map app]. by do 2 (constructor; [done|]).
Qed.

Lemma Measure_collect_no_cloudwatch sn clusters w :
  ∃ out w' evs,
    Measure_collect sn clusters w = Some (out, w')
    ∧ trace w' = trace w ++ evs
    ∧ Forall (λ e, cloudwatch_event e = false) evs.
Proof.
  revert w. induction clusters as [|cluster clusters IH]; intros w.
  - exists [], w, []. simpl. by rewrite app_nil_r.
  - destruct (MeasureCluster_no_cloudwatch sn cluster w)
      as (out1 & w1 & evs1 & H1 & T1 & P1).
    destruct (IH w1) as (out2 & w2 & evs2 & H2 & T2 & P2).
    exists (out1 ++ out2), w2, (evs1 ++ evs2). simpl.
    rewrite (bind_run _ _ _ _ _ H1), (bind_run _ _ _ _ _ H2).
    split; [done|]. rewrite T2, T1, app_assoc.
    split; [done|]. by apply Forall_app.
Qed.

Lemma Measure_run sn arrival w :
  Measure sn arrival w = None ↔
  Exists (λ arn, strings.Contains arn ":cluster/" = false) (seen_clusters sn).
Proof.
  rewrite <- (DiscoverClusters_None sn w). unfold Measure.
  destruct (DiscoverClusters sn w) as [[clusters w1]|] eqn:E.
  - destruct (Measure_collect_no_cloudwatch sn (arrival clusters) w1)
      as (out & w2 & evs & H & _ & _).
    by rewrite (bind_run _ _ _ _ _ E), H.
  - unfold bind. by rewrite E.
Qed.

(** [Run] panics when no session can be made, when a cluster identifier
    received does not contain ":cluster/", and when [ShouldPublish] is
    nil. *)
Theorem Run_panics newSession sn arrival w :
  (is_Some newSession → Run newSession sn arrival w = None)
  ∧ (Exists (λ arn, strings.Contains arn ":cluster/" = false) (seen_clusters sn) →
     Run newSession sn arrival w = None)
  ∧ (ShouldPublish sn = None → Run newSession sn arrival w = None).
Proof.
  unfold Run. destruct newSession as [err|]; [done|].
  split; [by intros [? [=]]|].
  unfold WithAWS, ret, bind.
  split.
  - intros H. apply (Measure_run sn arrival w) in H. by rewrite H.
  - intros H. destruct (Measure sn arrival w) as [[metricData w1]|]; [|done].
    by rewrite H.
Qed.

(** A session that cannot be made, the nil flag and an identifier without
    the separator, each with the fakes of the test suite. *)
Lemma Run_panics_examples :
  Run (Some (Err "no session")) (Fake.snitcher Fake.NewFakeECS) id Fake.world
    = None
  ∧ Run None
      {| CloudWatch := Fake.FakeCloudWatch; ECS := Fake.NewFakeECS;
         Namespace := Some "Collector/Test"; ShouldPublish := None |}
      id Fake.world = None
  ∧ Run None
      (Fake.snitcher
         {| ListClustersPages := ([["fake-ecs-cluster"]], None);
            ListTasksPages := λ _, ([[]], None);
            DescribeTasks := λ _ _, inl [];
            ListContainerInstances := λ _ _, inl [];
            DescribeContainerInstances := λ _ _, inl [] |})
      id Fake.world = None.
Proof.
  split; [|split].
  - by apply (proj1 (Run_panics _ _ _ _)).
  - by apply (proj2 (proj2 (Run_panics _ _ _ _))).
  - apply (proj1 (proj2 (Run_panics _ _ _ _))). by repeat constructor.
Defined.

(** With [ShouldPublish] pointing to false, a [Run] that returns has
    validated nothing and submitted nothing: none of its requests went to
    CloudWatch. *)
Theorem Run_without_publishing newSession sn arrival w w' :
  ShouldPublish sn = Some false →
  Run newSession sn arrival w = Some (tt, w') →
  ∃ evs,
    trace w' = trace w ++ evs
    ∧ Forall (λ e, cloudwatch_event e = false) evs.
Proof.
  intros Hflag. unfold Run.
  destruct newSession as [err|]; [done|].
  unfold WithAWS, ret, bind at 1. unfold Measure.
  destruct (DiscoverClusters sn w) as [[clusters w1]|] eqn:E.
  - destruct (Measure_collect_no_cloudwatch sn (arrival clusters) w1)
      as (out & w2 & evs & H & T & P).
    rewrite (bind_run _ _ _ out w2) by (by rewrite (bind_run _ _ _ _ _ E)).
    rewrite Hflag. unfold or_panic, ret, bind. intros [= <-].
    exists (EvListClustersPages :: evs).
    split; [|by constructor].
    rewrite T. unfold DiscoverClusters in E.
    rewrite (bind_run _ _ _ _ _ (emit_run _ _)) in E. unfold or_panic in E.
    destruct (mapM cluster_name _); [|done]. injection E as _ <-.
    simpl. by rewrite <- app_assoc.
  - unfold bind. by rewrite E.
Qed.

(** With a session, cluster identifiers that all contain ":cluster/" and
    the flag set to false, [Run] returns. *)
Lemma Run_returns sn arrival w :
  ShouldPublish sn = Some false →
  Forall (λ arn, strings.Contains arn ":cluster/" = true) (seen_clusters sn) →
  ∃ w', Run None sn arrival w = Some (tt, w').
Proof.
  intros Hflag Hok. unfold Run, WithAWS, ret, bind at 1.
  destruct (Measure sn arrival w) as [[metricData w1]|] eqn:M.
  - exists w1. rewrite (bind_run _ _ _ _ _ M), Hflag. done.
  - apply Measure_run in M. apply Exists_exists in M as (arn & Hin & Hc).
    rewrite Forall_forall in Hok. rewrite (Hok arn Hin) in Hc. done.
Qed.

(** The run of the test suite without the flag. *)
Lemma Run_without_publishing_fake :
  ∃ w' evs,
    Run None
        {| CloudWatch := Fake.FakeCloudWatch; ECS := Fake.NewFakeECS;
           Namespace := Some "Collector/Test"; ShouldPublish := Some false |}
        id Fake.world = Some (tt, w')
    ∧ trace w' = trace Fake.world ++ evs
    ∧ Forall (λ e, cloudwatch_event e = false) evs.
Proof.
  set (sn := {| CloudWatch := Fake.FakeCloudWatch; ECS := Fake.NewFakeECS;
                Namespace := Some "Collector/Test";
                ShouldPublish := Some false |}).
  destruct (Run_returns sn id Fake.world) as [w' E];
    [reflexivity | by repeat constructor |].
  exists w'.
  destruct (Run_without_publishing None sn id Fake.world w' eq_refl E)
    as (evs & T & P).
  exists evs. split; [exact E|]. split; [exact T|exact P].
Defined.

(** ** Failing task descriptions, missing resources *)

(** When every description of tasks fails, the footprint is (0, 0) and the
    cluster is skipped: [MeasureCluster] returns no point and sends no
    request about container instances. *)
Theorem MeasureCluster_skips_failed_descriptions sn cluster w :
  (∀ tasks, ∃ err, DescribeTasks (ECS sn) cluster tasks = inr err) →
  footprint sn cluster w =
    Some ((0, 0), extend w (footprint_events sn cluster))
  ∧ MeasureCluster sn cluster w =
      Some ([], extend w (footprint_events sn cluster))
  ∧ Forall (λ e, container_instance_event e = false) (footprint_events sn cluster).
Proof.
  intros Hfail.
  assert (described sn cluster = []) as E.
  { unfold described.
    induction (pages_seen (ListTasksPages (ECS sn) cluster).1) as [|tasks l IH];
      [done|].
    rewrite fmap_cons. cbn [concat]. rewrite IH. unfold described_batch.
    by destruct (Hfail tasks) as [err ->]. }
  split; [|split].
  - by rewrite footprint_run, E.
  - by rewrite MeasureCluster_run, E.
  - apply footprint_events_no_container_instance.
Qed.

Lemma MeasureCluster_skips_failed_descriptions_example :
  MeasureCluster
    (Fake.snitcher
       {| ListClustersPages := ([], None);
          ListTasksPages := λ _, ([["task/1"]; ["task/2"]], None);
          DescribeTasks := λ _ _, inr (Err "access denied");
          ListContainerInstances := λ _ _, inl ["container-instance/1"];
          DescribeContainerInstances :=
            λ _ _, inl [Fake.NewFakeContainerInstance Fake.expectedRegistered
                          Fake.expectedRemaining] |})
    "c" Fake.world =
    Some ([], extend Fake.world
                [EvListTasksPages "c"; EvDescribeTasks "c" ["task/1"];
                 EvDescribeTasks "c" ["task/2"]]).
Proof.
  refine (proj1 (proj2 (MeasureCluster_skips_failed_descriptions _ "c" Fake.world _))).
  intros tasks. by exists (Err "access denied").
Defined.

Lemma capacity_missing name unit rs :
  Forall (λ r, ecs.Name r ≠ name) rs → capacity name unit rs = 0.
Proof.
  induction 1 as [|r rs Hr _ IH]; [done|].
  rewrite capacity_cons, IH. by rewrite decide_False.
Qed.

(** A resource vector without an entry "CPU", or without an entry "MEMORY",
    holds no container, whatever the other resource offers, when the units
    are positive and the values are not negative and sum to an [int]. *)
Theorem ContainersPossible_missing_resource cpu memory resources :
  0 < cpu → 0 < memory →
  Forall (λ r, 0 ≤ ecs.IntegerValue r) resources →
  sum_values resources ≤ GoInt.max_int →
  Forall (λ r, ecs.Name r ≠ "CPU") resources
  ∨ Forall (λ r, ecs.Name r ≠ "MEMORY") resources →
  ContainersPossible cpu memory resources = Some 0.
Proof.
  intros Hc Hm Hn Hsum Hmiss.
  rewrite ContainersPossible_wrap by lia.
  pose proof (capacity_bounds "CPU" cpu resources Hc Hn) as H1.
  pose proof (capacity_bounds "MEMORY" memory resources Hm Hn) as H2.
  unfold cpu_capacity, memory_capacity.
  rewrite !wrap_in_int
    by (unfold GoInt.in_int, GoInt.min_int, GoInt.max_int in *; lia).
  f_equal. destruct Hmiss as [H|H]; rewrite (capacity_missing _ _ _ H) in *; lia.
Qed.

Lemma ContainersPossible_missing_resource_example :
  ContainersPossible 1024 2048 [ecs.mkResource "CPU" 8192;
                                ecs.mkResource "PORTS" 5] = Some 0.
Proof.
  apply ContainersPossible_missing_resource;
    [lia | lia | by repeat constructor | vm_compute; discriminate |].
  right. by repeat constructor.
Defined.
